(** * Verification of the faucet admission pipeline and of the CLI's EIP-55 helper

    Shallow embedding of
    - [src/pkg/cli/commands/request.go]: [toEIP55Checksum], [isValidEIP55Checksum],
      [detectAddressNetwork], [validateAddress], [validateStarknetAddress],
      [validateEthereumAddress], [hasMixedCase], [validateToken] and the
      validation prefix of [runRequest];
    - [src/pkg/cli/commands/root.go]: [networkAliases], [resolveNetwork],
      [ValidateNetwork], [GetNetwork];
    - [src/internal/api/handlers.go]: [RequestTokens], [handleBothTokensRequest],
      [GetStatus], [NewMultiChainHandler], [NewHandler], [getChain], [GetQuota],
      [GetInfo].
    Amounts are Go [float64]; they are modelled by Rocq's primitive binary64
    floats, which implement the same IEEE-754 arithmetic. *)

From Stdlib Require Import Ascii String ZArith Lia.
From Stdlib Require Import Floats.PrimFloat Uint63.
From stdpp Require Import base gmap strings.

Local Open Scope Z_scope.

(** ** ASCII helpers (Go's [strings.ToLower] / [strings.ToUpper] on ASCII) *)

Definition ascii_lower (c : ascii) : ascii :=
  let n := nat_of_ascii c in
  if (65 <=? n)%nat && (n <=? 90)%nat then ascii_of_nat (n + 32) else c.

Definition ascii_upper (c : ascii) : ascii :=
  let n := nat_of_ascii c in
  if (97 <=? n)%nat && (n <=? 122)%nat then ascii_of_nat (n - 32) else c.

Fixpoint ToLower (s : string) : string :=
  match s with
  | EmptyString => EmptyString
  | String c r => String (ascii_lower c) (ToLower r)
  end.

Fixpoint ToUpper (s : string) : string :=
  match s with
  | EmptyString => EmptyString
  | String c r => String (ascii_upper c) (ToUpper r)
  end.

(** Go's byte comparisons [c >= '0' && c <= '9'] and [hashNibble >= '8']. *)
Definition is_dec_digit (c : ascii) : bool :=
  (48 <=? nat_of_ascii c)%nat && (nat_of_ascii c <=? 57)%nat.

Definition ascii_geb (c d : ascii) : bool := (nat_of_ascii d <=? nat_of_ascii c)%nat.

Definition is_hex_char (c : ascii) : bool :=
  is_dec_digit c
  || ((97 <=? nat_of_ascii c)%nat && (nat_of_ascii c <=? 102)%nat)
  || ((65 <=? nat_of_ascii c)%nat && (nat_of_ascii c <=? 70)%nat).

Fixpoint all_hex (s : string) : bool :=
  match s with
  | EmptyString => true
  | String c r => is_hex_char c && all_hex r
  end.

(** An Ethereum address as the claim describes it: [0x] and 40 hex characters
    (the regex [^0x[0-9a-fA-F]{40}$] of the Ethereum chain's [ValidateAddress]). *)
Definition is_eth_address (a : string) : bool :=
  match a with
  | String "0" (String "x" h) => (String.length h =? 40)%nat && all_hex h
  | _ => false
  end.

(** ** EIP-55 checksumming ([request.go]) *)

Section EIP55.

(** [hex.EncodeToString(keccak256(addr))]: the hash is a parameter, so every
    result below holds for any hash function with a 64-character hex digest. *)
Variable keccak256_hex : string -> string.

(** The loop [for i, c := range addr { ... }]: digits are copied, other
    characters are upper-cased when the hash nibble at the same index is
    [>= '8']. Reading [hashHex[i]] out of range is a Go runtime panic,
    modelled by [None]. *)
Fixpoint apply_checksum (i : nat) (addr hashHex : string) : option string :=
  match addr with
  | EmptyString => Some EmptyString
  | String c rest =>
      match apply_checksum (S i) rest hashHex with
      | None => None
      | Some rest' =>
          if is_dec_digit c then Some (String c rest')
          else match String.get i hashHex with
               | None => None
               | Some nib =>
                   Some (String (if ascii_geb nib "8"%char then ascii_upper c else c) rest')
               end
      end
  end.

(** [toEIP55Checksum]; [address[2:]] panics on strings shorter than 2 ([None]). *)
Definition toEIP55Checksum (address : string) : option string :=
  if (String.length address <? 2)%nat then None
  else
    let addr := ToLower (String.substring 2 (String.length address - 2) address) in
    match apply_checksum 0 addr (keccak256_hex addr) with
    | Some r => Some ("0x" +:+ r)
    | None => None
    end.

(** [isValidEIP55Checksum]: [address == toEIP55Checksum(address)]. *)
Definition isValidEIP55Checksum (address : string) : option bool :=
  match toEIP55Checksum address with
  | Some r => Some (String.eqb address r)
  | None => None
  end.

End EIP55.

(** ** Go's conversions used by the handlers *)

(** [float64(n)] for a Go [int] of magnitude below [2^63]. *)
Definition float64_of_int (n : Z) : float :=
  if 0 <=? n then PrimFloat.of_uint63 (Uint63.of_Z n)
  else PrimFloat.opp (PrimFloat.of_uint63 (Uint63.of_Z (- n))).

(** ** Data model ([internal/models], [internal/config]) *)

Record FaucetRequest := mkFaucetRequest {
  req_Address : string;
  req_Network : string;
  req_Token : string;
  req_ChallengeID : string;
  req_Nonce : Z
}.

Record TransactionInfo := mkTransactionInfo {
  tx_Token : string;
  tx_Amount : string;
  tx_TxHash : string
}.

(** The error strings of the handlers, one constructor per message. *)
Inductive ErrorMsg :=
| MsgUnsupportedNetwork (network : string)
| MsgProviderNotFound (network : string)
| MsgInvalidAddress
| MsgInvalidToken
| MsgFailedCheckRateLimit                       (* "Failed to check rate limit" *)
| MsgDailyCooldown (hours minutes : Z)          (* "[DAILY LIMIT] ... 24-hour cooldown: %s remaining." *)
| MsgDailyExceeded (used cap : Z)               (* "[DAILY LIMIT] Request would exceed daily limit (%d/%d used)." *)
| MsgHourlyLimit (token network : string) (minutes : Z)  (* "[HOURLY LIMIT] ..." *)
| MsgNilDeref                                   (* Go nil-pointer dereference *)
| MsgInvalidChallenge                           (* "Invalid or expired challenge" *)
| MsgInvalidPoW                                 (* "Invalid proof of work solution" *)
| MsgFailedProcess                              (* "Failed to process request" *)
| MsgFaucetLimit                                (* "[FAUCET LIMIT] ..." *)
| MsgFailedCheckBalance                         (* "Failed to check faucet balance" *)
| MsgLowBalance (token : string)                (* "[LOW BALANCE] ..." *)
| MsgFailedSend                                 (* "Failed to send tokens. Please try again later." *)
| MsgFailedSendToken (token : string)           (* "Failed to send %s tokens. Please try again later." *)
| MsgFailedCheckStatus.                         (* "Failed to check status" *)

Inductive OkMessage :=
| MsgTokensSent                                 (* "Tokens sent successfully" *)
| MsgBothSent                                   (* "Both tokens sent successfully" *)
| MsgPartial (sent : Z) (failedToken : string).  (* "Sent %d token(s) successfully, but %s failed" *)

Record FaucetResponse := mkFaucetResponse {
  fr_Success : bool;
  fr_TxHash : string;
  fr_Amount : string;
  fr_Token : string;
  fr_Transactions : list TransactionInfo;
  fr_Message : OkMessage
}.

(** [models.StatusResponse]: [NextRequestTime *time.Time], [RemainingHours *float64]. *)
Record StatusResponse := mkStatusResponse {
  sr_Address : string;
  sr_CanRequest : bool;
  sr_NextRequestTime : option Z;
  sr_RemainingHours : option float
}.

Inductive Body :=
| ErrorBody (e : ErrorMsg)
| FaucetBody (r : FaucetResponse)
| StatusBody (r : StatusResponse).

Record Response := mkResponse { status : Z; body : Body }.

Definition StatusBadRequest := 400.
Definition StatusTooManyRequests := 429.
Definition StatusInternalServerError := 500.
Definition StatusServiceUnavailable := 503.
Definition StatusOK := 200.

(** ** The counter store ([internal/cache], not in the sources) *)

(** Modelled from the spec: the Redis-backed counter store of [internal/cache]
    (§3 "Quota Counters", §4.2, §4.3): the challenges, the per-IP daily counter
    and its 24-hour cooldown marker, the per-(ip, network, token) throttle
    marker with a 1-hour TTL, and the global hourly and daily distribution
    totals per token. Markers are stored with their expiry time; an expired
    marker counts as absent. *)
Record Store := mkStore {
  challenges : gmap string string;
  ip_daily : gmap string Z;
  ip_cooldown : gmap string Z;
  token_throttle : gmap (string * string * string) Z;
  global_hourly : gmap string float;
  global_daily : gmap string float
}.

Inductive StoreOp :=
| OpCheckIPDailyLimit | OpGetIPDailyQuota | OpCheckTokenHourlyThrottle
| OpSetTokenHourlyThrottle | OpIncrementIPDailyLimit
| OpGetChallenge | OpDeleteChallenge | OpTrackGlobalDistribution.

(** Collaborator calls and gate evaluations, in the order the handler makes them. *)
Inductive Call :=
| CGetChain
| CValidateAddress
| CValidateToken
| CCheckIPDailyLimit
| CGetIPDailyQuota
| CCheckTokenHourlyThrottle (token : string)
| CGetChallenge
| CVerifyPoW
| CDeleteChallenge
| CTrackGlobalDistribution (token : string)
| CGetBalance (token : string)
| CBalanceGuard (token : string)
| CTransferTokens (token : string)
| CIncrementIPDailyLimit (n : Z)
| CSetTokenHourlyThrottle (token : string).

(** The world a handler runs in: the store, which store operations are failing
    (Redis unreachable), the current time in seconds, and the calls made so far. *)
Record World := mkWorld {
  w_store : Store;
  w_down : StoreOp -> bool;
  w_now : Z;
  w_log : list Call
}.

Inductive GoErr := ErrUnavailable | ErrNotFound.

Inductive result (A : Type) := Ok (a : A) | Err (e : GoErr).
Arguments Ok {A} a.
Arguments Err {A} e.

(** ** The handler monad: state, plus an early [return c.JSON(...)] *)

Inductive Exit (A : Type) := Return (r : Response) | Continue (a : A).
Arguments Return {A} r.
Arguments Continue {A} a.

Definition M (A : Type) := World -> World * Exit A.

Definition ret {A} (a : A) : M A := fun w => (w, Continue a).
Definition reply {A} (r : Response) : M A := fun w => (w, Return r).
Definition bind {A B} (c : M A) (k : A -> M B) : M B :=
  fun w => match c w with
           | (w', Continue a) => k a w'
           | (w', Return r) => (w', Return r)
           end.

Notation "'let*' x ':=' c 'in' k" := (bind c (fun x => k))
  (at level 200, x name, c at level 100, k at level 200).

Definition log_call (c : Call) (w : World) : World :=
  mkWorld (w_store w) (w_down w) (w_now w) (w_log w ++ [c]).

(** A gate evaluated by the handler itself (pure computation), recorded in the log. *)
Definition gate {A} (c : Call) (v : A) : M A := fun w => (log_call c w, Continue v).

(** A store call: logged; fails with [ErrUnavailable] when the store is down. *)
Definition store_call {A} (op : StoreOp) (c : Call)
    (f : Z -> Store -> Store * result A) : M (result A) :=
  fun w =>
    let w1 := log_call c w in
    if w_down w op then (w1, Continue (Err ErrUnavailable))
    else let '(s', r) := f (w_now w) (w_store w) in
         (mkWorld s' (w_down w1) (w_now w1) (w_log w1), Continue r).

Definition set_challenges s m := mkStore m (ip_daily s) (ip_cooldown s) (token_throttle s) (global_hourly s) (global_daily s).
Definition set_daily s m := mkStore (challenges s) m (ip_cooldown s) (token_throttle s) (global_hourly s) (global_daily s).
Definition set_cooldown s m := mkStore (challenges s) (ip_daily s) m (token_throttle s) (global_hourly s) (global_daily s).
Definition set_throttle s m := mkStore (challenges s) (ip_daily s) (ip_cooldown s) m (global_hourly s) (global_daily s).
Definition set_global s mh md := mkStore (challenges s) (ip_daily s) (ip_cooldown s) (token_throttle s) mh md.

Definition TokenThrottleTTL := 3600.
Definition IPCooldownTTL := 86400.

(** Active cooldown end for [ip], if any. *)
Definition active_cooldown (now : Z) (s : Store) (ip : string) : option Z :=
  match ip_cooldown s !! ip with
  | Some t => if now <? t then Some t else None
  | None => None
  end.

Definition daily_used (s : Store) (ip : string) : Z := default 0 (ip_daily s !! ip).

(** Modelled from the spec: [RedisClient.CheckIPDailyLimit] (§4.3.1): reads the
    daily counter and the cooldown marker; with a cooldown it denies and reports
    the cooldown end, otherwise it allows while the counter is below the cap. *)
Definition CheckIPDailyLimit (cap : Z) (ip : string) : M (result (bool * Z * option Z)) :=
  store_call OpCheckIPDailyLimit CCheckIPDailyLimit (fun now s =>
    let used := daily_used s ip in
    match active_cooldown now s ip with
    | Some t => (s, Ok (false, used, Some t))
    | None => (s, Ok (used <? cap, used, None))
    end).

(** Modelled from the spec: [RedisClient.GetIPDailyQuota]: used, remaining and
    the cooldown end. *)
Definition GetIPDailyQuota (cap : Z) (ip : string) : M (result (Z * Z * option Z)) :=
  store_call OpGetIPDailyQuota CGetIPDailyQuota (fun now s =>
    let used := daily_used s ip in
    (s, Ok (used, Z.max 0 (cap - used), active_cooldown now s ip))).

(** Modelled from the spec: [RedisClient.IncrementIPDailyLimit] (commit of
    §4.3.1): adds [n]; on reaching the cap sets the 24-hour cooldown marker. *)
Definition IncrementIPDailyLimit (cap : Z) (ip : string) (n : Z) : M (result unit) :=
  store_call OpIncrementIPDailyLimit (CIncrementIPDailyLimit n) (fun now s =>
    let used' := daily_used s ip + n in
    let s1 := set_daily s (<[ip := used']> (ip_daily s)) in
    if cap <=? used'
    then (set_cooldown s1 (<[ip := now + IPCooldownTTL]> (ip_cooldown s1)), Ok tt)
    else (s1, Ok tt)).

(** Modelled from the spec: [RedisClient.CheckTokenHourlyThrottle] (§4.3.2):
    allowed iff no live marker exists for the exact key. *)
Definition CheckTokenHourlyThrottle (ip network token : string) : M (result (bool * option Z)) :=
  store_call OpCheckTokenHourlyThrottle (CCheckTokenHourlyThrottle token) (fun now s =>
    match token_throttle s !! (ip, network, token) with
    | Some e => if now <? e then (s, Ok (false, Some e)) else (s, Ok (true, None))
    | None => (s, Ok (true, None))
    end).

(** Modelled from the spec: [RedisClient.SetTokenHourlyThrottle]: marker with a 1-hour TTL. *)
Definition SetTokenHourlyThrottle (ip network token : string) : M (result unit) :=
  store_call OpSetTokenHourlyThrottle (CSetTokenHourlyThrottle token) (fun now s =>
    (set_throttle s (<[(ip, network, token) := now + TokenThrottleTTL]> (token_throttle s)), Ok tt)).

(** Modelled from the spec: [RedisClient.GetChallenge]; a missing key is an error. *)
Definition GetChallenge (id : string) : M (result string) :=
  store_call OpGetChallenge CGetChallenge (fun _ s =>
    match challenges s !! id with
    | Some c => (s, Ok c)
    | None => (s, Err ErrNotFound)
    end).

(** Modelled from the spec: [RedisClient.DeleteChallenge]. *)
Definition DeleteChallenge (id : string) : M (result unit) :=
  store_call OpDeleteChallenge CDeleteChallenge (fun _ s =>
    (set_challenges s (delete id (challenges s)), Ok tt)).

(** Modelled from the spec: [RedisClient.TrackGlobalDistribution] (§4.3.3):
    one atomic check-and-increment of the hourly and daily totals. *)
Definition TrackGlobalDistribution (token : string) (amount maxHourly maxDaily : float)
    : M (result bool) :=
  store_call OpTrackGlobalDistribution (CTrackGlobalDistribution token) (fun _ s =>
    let hr := default 0%float (global_hourly s !! token) in
    let dy := default 0%float (global_daily s !! token) in
    if PrimFloat.leb (hr + amount)%float maxHourly && PrimFloat.leb (dy + amount)%float maxDaily
    then (set_global s (<[token := (hr + amount)%float]> (global_hourly s))
                       (<[token := (dy + amount)%float]> (global_daily s)), Ok true)
    else (s, Ok false)).

(** ** Chain collaborators ([chains.Chain], [ChainProvider]) *)

(** The chain capability interface. [GetBalance] returns the balance already
    converted by [chains.WeiToAmount]; [None] is an RPC error. *)
Record Chain := mkChain {
  ValidateAddress : string -> bool;
  ValidateToken : string -> bool;
  GetSupportedTokens : list string;
  GetBalance : string -> string -> option float;
  TransferTokens : string -> string -> float -> option string
}.

Record ChainProvider := mkChainProvider {
  GetDripAmount : string -> string;
  GetMaxTokensPerHour : string -> float;
  GetMaxTokensPerDay : string -> float;
  GetMinBalanceProtectPct : Z;
  GetFaucetAddress : string
}.

(** [Handler] with the parts of [config.Config] it reads. [VerifyPoW] is the
    (pure) verifier of [internal/pow] and [ParseFloat] is [strconv.ParseFloat]
    with its error ignored, as the handlers do. *)
Record Handler := mkHandler {
  h_chains : gmap string Chain;
  h_providers : gmap string ChainProvider;
  h_defaultNetwork : string;
  h_MaxRequestsPerDayIP : Z;
  h_PoWDifficulty : Z;
  h_VerifyPoW : string -> Z -> Z -> bool;
  h_ParseFloat : string -> float
}.

Definition chain_validate_address (ch : Chain) (a : string) : M bool :=
  gate CValidateAddress (ValidateAddress ch a).
Definition chain_validate_token (ch : Chain) (t : string) : M bool :=
  gate CValidateToken (ValidateToken ch t).
Definition chain_get_balance (ch : Chain) (a t : string) : M (option float) :=
  gate (CGetBalance t) (GetBalance ch a t).
Definition chain_transfer (ch : Chain) (a t : string) (amt : float) : M (option string) :=
  gate (CTransferTokens t) (TransferTokens ch a t amt).

Definition err {A} (code : Z) (e : ErrorMsg) : M A := reply (mkResponse code (ErrorBody e)).

Definition network_or_default (h : Handler) (network : string) : string :=
  if String.eqb network "" then h_defaultNetwork h else network.

(** [getChain] *)
Definition getChain (h : Handler) (network : string) : M (ErrorMsg + Chain * ChainProvider) :=
  let network := network_or_default h network in
  gate CGetChain
    (match h_chains h !! network with
     | None => inl (MsgUnsupportedNetwork network)
     | Some ch =>
         match h_providers h !! network with
         | None => inl (MsgProviderNotFound network)
         | Some p => inr (ch, p)
         end
     end).

(** ** The balance guard *)

(** [minBalancePct := float64(pct) / 100.0; minBalanceRequired :=
    currentBalanceFloat * minBalancePct; balanceAfterTransfer :=
    currentBalanceFloat - amountFloat]; the transfer is refused iff
    [balanceAfterTransfer < minBalanceRequired]. *)
Definition balance_guard_denies (currentBalanceFloat amountFloat : float) (pct : Z) : bool :=
  let minBalancePct := (float64_of_int pct / 100)%float in
  let minBalanceRequired := (currentBalanceFloat * minBalancePct)%float in
  let balanceAfterTransfer := (currentBalanceFloat - amountFloat)%float in
  PrimFloat.ltb balanceAfterTransfer minBalanceRequired.

(** ** [RequestTokens] *)

(** [int(d.Hours())] and [int(d.Minutes()) % 60] for a duration of [d] seconds. *)
Definition cooldown_msg (remaining : Z) : ErrorMsg :=
  MsgDailyCooldown (Z.quot remaining 3600) (Z.rem (Z.quot remaining 60) 60).

(** The per-token hourly throttle loop ([for _, token := range supportedTokens]). *)
Fixpoint check_throttles (ip network : string) (tokens : list string) : M unit :=
  match tokens with
  | [] => ret tt
  | token :: rest =>
      let* r := CheckTokenHourlyThrottle ip network token in
      match r with
      | Err _ => err StatusInternalServerError MsgFailedCheckRateLimit
      | Ok (false, Some nextTime) =>
          fun w => err StatusTooManyRequests
                     (MsgHourlyLimit token network (Z.quot (nextTime - w_now w) 60 + 1)) w
      | Ok (false, None) => err StatusInternalServerError MsgNilDeref
      | Ok (true, _) => check_throttles ip network rest
      end
  end.

(** The loop of [handleBothTokensRequest]: returns the transactions made and
    [failedToken] ([""] when no token failed); every failure [break]s. *)
Fixpoint both_loop (h : Handler) (chain : Chain) (prov : ChainProvider)
    (address : string) (tokens : list string) (txs : list TransactionInfo)
    : M (list TransactionInfo * string) :=
  match tokens with
  | [] => ret (txs, "")
  | token :: rest =>
      let amountStr := GetDripAmount prov token in
      let amountFloat := h_ParseFloat h amountStr in
      let* r := TrackGlobalDistribution token amountFloat
                  (GetMaxTokensPerHour prov token) (GetMaxTokensPerDay prov token) in
      match r with
      | Err _ | Ok false => ret (txs, token)
      | Ok true =>
          let* b := chain_get_balance chain (GetFaucetAddress prov) token in
          match b with
          | None => ret (txs, token)
          | Some currentBalanceFloat =>
              let* low := gate (CBalanceGuard token)
                            (balance_guard_denies currentBalanceFloat amountFloat
                               (GetMinBalanceProtectPct prov)) in
              if low then ret (txs, token)
              else
                let* t := chain_transfer chain address token amountFloat in
                match t with
                | None => ret (txs, token)
                | Some txHash =>
                    both_loop h chain prov address rest
                      (txs ++ [mkTransactionInfo token amountStr txHash])
                end
          end
      end
  end.

(** [for _, tx := range transactions { SetTokenHourlyThrottle(...) }], errors logged. *)
Fixpoint set_throttles (ip network : string) (txs : list TransactionInfo) : M unit :=
  match txs with
  | [] => ret tt
  | tx :: rest =>
      let* _ := SetTokenHourlyThrottle ip network (tx_Token tx) in
      set_throttles ip network rest
  end.

(** [handleBothTokensRequest] *)
Definition handleBothTokensRequest (h : Handler) (req : FaucetRequest) (ip : string)
    (chain : Chain) (prov : ChainProvider) : M Response :=
  let* res := both_loop h chain prov (req_Address req) (GetSupportedTokens chain) [] in
  let '(transactions, failedToken) := res in
  if (0 <? length transactions)%nat then
    let* _ := IncrementIPDailyLimit (h_MaxRequestsPerDayIP h) ip 2 in
    let network := network_or_default h (req_Network req) in
    let* _ := set_throttles ip network transactions in
    let message := if String.eqb failedToken "" then MsgBothSent
                   else MsgPartial (Z.of_nat (length transactions)) failedToken in
    reply (mkResponse StatusOK
             (FaucetBody (mkFaucetResponse true "" "" "" transactions message)))
  else err StatusInternalServerError (MsgFailedSendToken failedToken).

(** [RequestTokens], after the body has been parsed into [req0]; [ip] is [c.IP()]. *)
Definition RequestTokens (h : Handler) (ip : string) (req0 : FaucetRequest) : M Response :=
  let* gc := getChain h (req_Network req0) in
  match gc with
  | inl e => err StatusBadRequest e
  | inr (chain, chainProvider) =>
  let* okAddr := chain_validate_address chain (req_Address req0) in
  if negb okAddr then err StatusBadRequest MsgInvalidAddress else
  let token := ToUpper (req_Token req0) in
  let req := mkFaucetRequest (req_Address req0) (req_Network req0) token
               (req_ChallengeID req0) (req_Nonce req0) in
  let isBoth := String.eqb token "BOTH" in
  let* okTok := (if isBoth then ret true else chain_validate_token chain token) in
  if negb okTok then err StatusBadRequest MsgInvalidToken else
  (* 1. daily limit and 24h cooldown *)
  let cap := h_MaxRequestsPerDayIP h in
  let* d := CheckIPDailyLimit cap ip in
  match d with
  | Err _ => err StatusInternalServerError MsgFailedCheckRateLimit
  | Ok (canRequest, currentCount, cooldownEnd) =>
  match (negb canRequest, cooldownEnd) with
  | (true, Some t) => fun w => err StatusTooManyRequests (cooldown_msg (t - w_now w)) w
  | _ =>
  let requestCost := if isBoth then 2 else 1 in
  if negb canRequest || (cap <? currentCount + requestCost) then
    let* q := GetIPDailyQuota cap ip in
    let used := match q with Ok (u, _, _) => u | Err _ => 0 end in
    err StatusTooManyRequests (MsgDailyExceeded used cap)
  else
  (* 2. per-token hourly throttle *)
  let network := network_or_default h (req_Network req) in
  let* _ := (if isBoth then check_throttles ip network (GetSupportedTokens chain)
             else check_throttles ip network [token]) in
  (* proof of work *)
  let* sc := GetChallenge (req_ChallengeID req) in
  match sc with
  | Err _ => err StatusBadRequest MsgInvalidChallenge
  | Ok storedChallenge =>
  let* okPow := gate CVerifyPoW (h_VerifyPoW h storedChallenge (req_Nonce req) (h_PoWDifficulty h)) in
  if negb okPow then err StatusBadRequest MsgInvalidPoW else
  let* _ := DeleteChallenge (req_ChallengeID req) in
  if isBoth then handleBothTokensRequest h req ip chain chainProvider else
  let amountStr := GetDripAmount chainProvider token in
  let amountFloat := h_ParseFloat h amountStr in
  let* g := TrackGlobalDistribution token amountFloat
              (GetMaxTokensPerHour chainProvider token) (GetMaxTokensPerDay chainProvider token) in
  match g with
  | Err _ => err StatusInternalServerError MsgFailedProcess
  | Ok false => err StatusServiceUnavailable MsgFaucetLimit
  | Ok true =>
  let* b := chain_get_balance chain (GetFaucetAddress chainProvider) token in
  match b with
  | None => err StatusInternalServerError MsgFailedCheckBalance
  | Some currentBalanceFloat =>
  let* low := gate (CBalanceGuard token)
                (balance_guard_denies currentBalanceFloat amountFloat
                   (GetMinBalanceProtectPct chainProvider)) in
  if low then err StatusServiceUnavailable (MsgLowBalance token) else
  let* t := chain_transfer chain (req_Address req) token amountFloat in
  match t with
  | None => err StatusInternalServerError MsgFailedSend
  | Some txHash =>
  let* _ := IncrementIPDailyLimit cap ip 1 in
  let* _ := SetTokenHourlyThrottle ip network token in
  reply (mkResponse StatusOK
           (FaucetBody (mkFaucetResponse true txHash amountStr token [] MsgTokensSent)))
  end end end end end end end.

(** ** [GetStatus] *)

(** [GetStatus]; [network] is [c.Query("network", h.defaultNetwork)]. *)
Definition GetStatus (h : Handler) (ip address network : string) : M Response :=
  let* gc := getChain h network in
  match gc with
  | inl e => err StatusBadRequest e
  | inr (chain, _) =>
  let* okAddr := chain_validate_address chain address in
  if negb okAddr then err StatusBadRequest MsgInvalidAddress else
  let* q := GetIPDailyQuota (h_MaxRequestsPerDayIP h) ip in
  match q with
  | Err _ => err StatusInternalServerError MsgFailedCheckStatus
  | Ok (used, remaining, cooldownEnd) =>
      let canRequest := (0 <? remaining) && bool_decide (cooldownEnd = None) in
      reply (mkResponse StatusOK
               (StatusBody (mkStatusResponse address canRequest None None)))
  end
  end.

(** ** Observations used in the statements *)

(** A [200] faucet response. *)
Definition is_success (x : Exit Response) : bool :=
  match x with
  | Return (mkResponse 200 (FaucetBody _)) => true
  | _ => false
  end.

(** The parts of the store written by the commit step: the daily counter, the
    cooldown marker and the throttle markers. *)
Definition commit_state (s : Store) :=
  (ip_daily s, ip_cooldown s, token_throttle s).

Definition is_both (req : FaucetRequest) : bool :=
  String.eqb (ToUpper (req_Token req)) "BOTH".

(** The gates that run after the PoW check: global distribution, balance,
    balance guard and transfer. *)
Definition is_disbursement_gate (c : Call) : bool :=
  match c with
  | CTrackGlobalDistribution _ | CGetBalance _ | CBalanceGuard _ | CTransferTokens _ => true
  | _ => false
  end.

Definition is_delete (c : Call) : bool :=
  match c with CDeleteChallenge => true | _ => false end.

(** Every call of [l] satisfying [q] comes after a call satisfying [p]. *)
Fixpoint preceded_by (p q : Call -> bool) (l : list Call) : bool :=
  match l with
  | [] => true
  | c :: l' => p c || (negb (q c) && preceded_by p q l')
  end.

(** A live throttle marker for [key] at time [now]. *)
Definition throttle_live (now : Z) (s : Store) (key : string * string * string) : bool :=
  match token_throttle s !! key with
  | Some e => now <? e
  | None => false
  end.

(** The responses the hourly-throttle gate can produce for [token]. *)
Definition throttle_rejection (token network : string) (r : Response) : Prop :=
  r = mkResponse StatusInternalServerError (ErrorBody MsgFailedCheckRateLimit) \/
  (exists m, r = mkResponse StatusTooManyRequests (ErrorBody (MsgHourlyLimit token network m))) \/
  r = mkResponse StatusInternalServerError (ErrorBody MsgNilDeref).

(** The calls of a single-token request that runs to completion, in order:
    the gates, then the two commits. *)
Definition canonical_single (token : string) : list Call :=
  [CGetChain; CValidateAddress; CValidateToken; CCheckIPDailyLimit;
   CCheckTokenHourlyThrottle token; CGetChallenge; CVerifyPoW; CDeleteChallenge;
   CTrackGlobalDistribution token; CGetBalance token; CBalanceGuard token;
   CTransferTokens token; CIncrementIPDailyLimit 1; CSetTokenHourlyThrottle token].

(** The quota read that only builds the message of a daily-limit rejection. *)
Definition is_quota_read (c : Call) : bool :=
  match c with CGetIPDailyQuota => true | _ => false end.

(** The responses by which each call of the handler can end a request. *)
Definition rejected_by (g : Call) (r : Response) : Prop :=
  match g with
  | CGetChain => exists n, r = mkResponse StatusBadRequest (ErrorBody (MsgUnsupportedNetwork n)) \/
                           r = mkResponse StatusBadRequest (ErrorBody (MsgProviderNotFound n))
  | CValidateAddress => r = mkResponse StatusBadRequest (ErrorBody MsgInvalidAddress)
  | CValidateToken => r = mkResponse StatusBadRequest (ErrorBody MsgInvalidToken)
  | CCheckIPDailyLimit =>
      r = mkResponse StatusInternalServerError (ErrorBody MsgFailedCheckRateLimit) \/
      exists hh mm, r = mkResponse StatusTooManyRequests (ErrorBody (MsgDailyCooldown hh mm))
  | CGetIPDailyQuota =>
      exists used cap, r = mkResponse StatusTooManyRequests (ErrorBody (MsgDailyExceeded used cap))
  | CCheckTokenHourlyThrottle t => exists network, throttle_rejection t network r
  | CGetChallenge => r = mkResponse StatusBadRequest (ErrorBody MsgInvalidChallenge)
  | CVerifyPoW => r = mkResponse StatusBadRequest (ErrorBody MsgInvalidPoW)
  | CTrackGlobalDistribution _ =>
      r = mkResponse StatusInternalServerError (ErrorBody MsgFailedProcess) \/
      r = mkResponse StatusServiceUnavailable (ErrorBody MsgFaucetLimit)
  | CGetBalance _ => r = mkResponse StatusInternalServerError (ErrorBody MsgFailedCheckBalance)
  | CBalanceGuard t => r = mkResponse StatusServiceUnavailable (ErrorBody (MsgLowBalance t))
  | CTransferTokens _ => r = mkResponse StatusInternalServerError (ErrorBody MsgFailedSend)
  | _ => False
  end.

(** The calls made for one token by the loop of [handleBothTokensRequest]. *)
Definition per_token_calls (t : string) : list Call :=
  [CTrackGlobalDistribution t; CGetBalance t; CBalanceGuard t; CTransferTokens t].

(** The tokens a BOTH request covers: those of its network's chain. *)
Definition both_tokens (h : Handler) (req : FaucetRequest) : list string :=
  match h_chains h !! network_or_default h (req_Network req) with
  | Some chain => GetSupportedTokens chain
  | None => []
  end.

(** The gates of a BOTH request before its loop over the tokens. *)
Definition both_prefix (toks : list string) : list Call :=
  [CGetChain; CValidateAddress; CCheckIPDailyLimit] ++ map CCheckTokenHourlyThrottle toks ++
  [CGetChallenge; CVerifyPoW; CDeleteChallenge].

(** The calls [l] of the loop over [toks] of a BOTH request that sent the
    tokens [sent]: all of them, or those of [sent] and then the calls for
    [failed] up to the gate that failed for it. *)
Definition both_loop_shape (toks sent : list string) (failed : string) (l : list Call) : Prop :=
  (toks = sent /\ failed = "" /\ l = concat (map per_token_calls toks)) \/
  (exists rest p, toks = sent ++ failed :: rest /\
     l = concat (map per_token_calls sent) ++ p /\
     p <> [] /\ p `prefix_of` per_token_calls failed).

(** The gate order of a single-token request, given its log and outcome. *)
Definition single_order (token : string) (log : list Call) (x : Exit Response) : Prop :=
  filter (fun c => negb (is_quota_read c)) log `prefix_of` canonical_single token /\
  (forall r, x = Return r -> status r <> StatusOK ->
     exists g, last log = Some g /\ rejected_by g r) /\
  (is_success x = true -> log = canonical_single token).

(** The gate order of a BOTH request over [toks], given its log and outcome:
    rejected before the challenge deletion by the last gate it ran, or past
    the deletion, with the loop over the tokens stopping at the first failed
    gate and the answer built from the tokens sent. *)
Definition both_order (toks : list string) (log : list Call) (x : Exit Response) : Prop :=
  (filter (fun c => negb (is_quota_read c)) log `prefix_of` both_prefix toks /\
   ~ In CDeleteChallenge log /\
   forall r, x = Return r -> exists g, last log = Some g /\ rejected_by g r) \/
  (exists txs failed l,
     both_loop_shape toks (map tx_Token txs) failed l /\
     ((txs = [] /\ log = both_prefix toks ++ l /\
       x = Return (mkResponse StatusInternalServerError (ErrorBody (MsgFailedSendToken failed)))) \/
      (txs <> [] /\
       log = both_prefix toks ++ l ++
               CIncrementIPDailyLimit 2 :: map (fun tx => CSetTokenHourlyThrottle (tx_Token tx)) txs /\
       exists fr, x = Return (mkResponse StatusOK (FaucetBody fr)) /\
         fr_Transactions fr = txs /\
         fr_Message fr = if String.eqb failed "" then MsgBothSent
                         else MsgPartial (Z.of_nat (length txs)) failed))).

(** ** The CLI's address and token validation ([pkg/cli/commands]) *)

(** The errors of [request.go] and [root.go], one constructor per
    [fmt.Errorf] format, with its arguments. *)
Inductive CliError :=
| ErrNetworkRequired                                  (* "network required ..." *)
| ErrInvalidNetwork (network : string)                (* "invalid network: %s ..." *)
| ErrMismatch (address selected detected : string) (len : nat)
                                                      (* "address/network mismatch detected! ..." *)
| ErrMissing0x (address : string)                     (* "invalid address: must start with 0x ..." *)
| ErrNonHex (c : ascii) (pos : nat) (address : string)
                                                      (* "... non-hex character '%c' at position %d ..." *)
| ErrUnsupportedNetwork (network : string)            (* "unsupported network: %s" *)
| ErrStarknetEmpty (address : string)                 (* "invalid Starknet address: empty hex part ..." *)
| ErrStarknetTooLong (n : nat) (address : string)     (* "... too long (%d hex chars, max 64) ..." *)
| ErrLooksEthereum (address : string)                 (* "address looks like an Ethereum address ..." *)
| ErrLooksStarknet (n : nat) (address : string)       (* "address looks like a Starknet address ..." *)
| ErrEthWrongLength (n : nat) (address : string)      (* "... wrong length (%d hex chars, need exactly 40) ..." *)
| ErrChecksum (address expected lower : string)       (* "... EIP-55 checksum failed ..." *)
| ErrInvalidStarknetToken (token : string)            (* "invalid token '%s' for Starknet ..." *)
| ErrInvalidEthereumToken (token : string)            (* "invalid token '%s' for Ethereum ..." *)
| ErrBothOnlyStarknet.                                (* "--both flag is only supported on Starknet network" *)

(** A Go function returning [error]: [nil] with a value, an error, or a
    runtime panic (an index out of range in [toEIP55Checksum]). *)
Inductive Go (A : Type) := GoOk (a : A) | GoError (e : CliError) | GoPanic.
Arguments GoOk {A} a.
Arguments GoError {A} e.
Arguments GoPanic {A}.

(** [strings.HasPrefix(address, "0x")] and [address[2:]]. *)
Definition strip_0x (address : string) : option string :=
  match address with
  | String "0" (String "x" hexPart) => Some hexPart
  | _ => None
  end.

(** The loop [for i, c := range hexPart] of [validateAddress]: the first
    character that is not [0-9a-fA-F], with its index. Go ranges over runes;
    a non-ASCII rune starts with a byte [>= 0x80], so the first non-hex rune
    starts at the first non-hex byte, and the message shows that rune (here
    its first byte). *)
Fixpoint first_non_hex (i : nat) (s : string) : option (ascii * nat) :=
  match s with
  | EmptyString => None
  | String c r => if is_hex_char c then first_non_hex (S i) r else Some (c, i)
  end.

(** [detectAddressNetwork] *)
Definition detectAddressNetwork (address : string) : string :=
  match strip_0x address with
  | None => ""
  | Some hexPart =>
      if negb (all_hex hexPart) then ""
      else
        let n := String.length hexPart in
        if (n =? 40)%nat then "ethereum"
        else if (40 <? n)%nat && (n <=? 64)%nat then "starknet"
        else if (n <? 40)%nat then "starknet"
        else ""
  end.

(** The loop of [hasMixedCase], with its two flags. *)
Fixpoint hasMixedCase_loop (hasUpper hasLower : bool) (s : string) : bool * bool :=
  match s with
  | EmptyString => (hasUpper, hasLower)
  | String c r =>
      let n := nat_of_ascii c in
      let hasUpper := if (65 <=? n)%nat && (n <=? 70)%nat then true else hasUpper in
      let hasLower := if (97 <=? n)%nat && (n <=? 102)%nat then true else hasLower in
      hasMixedCase_loop hasUpper hasLower r
  end.

(** [hasMixedCase] *)
Definition hasMixedCase (s : string) : bool :=
  let '(hasUpper, hasLower) := hasMixedCase_loop false false s in
  hasUpper && hasLower.

(** [validateStarknetAddress] *)
Definition validateStarknetAddress (address hexPart : string) : Go unit :=
  let n := String.length hexPart in
  if (n =? 0)%nat then GoError (ErrStarknetEmpty address)
  else if (64 <? n)%nat then GoError (ErrStarknetTooLong n address)
  else if (n =? 40)%nat then GoError (ErrLooksEthereum address)
  else GoOk tt.

Section CliValidation.

(** The Keccak-256 hex digest used by [toEIP55Checksum]. *)
Variable keccak256_hex : string -> string.

(** [validateEthereumAddress]; [strings.ToLower(address)] acts on an address
    already known to be [0x] and hex digits, where it is the ASCII mapping. *)
Definition validateEthereumAddress (address hexPart : string) : Go unit :=
  let n := String.length hexPart in
  if negb (n =? 40)%nat then
    if (40 <? n)%nat && (n <=? 64)%nat then GoError (ErrLooksStarknet n address)
    else GoError (ErrEthWrongLength n address)
  else if hasMixedCase hexPart then
    match isValidEIP55Checksum keccak256_hex address with
    | None => GoPanic
    | Some true => GoOk tt
    | Some false =>
        match toEIP55Checksum keccak256_hex address with
        | None => GoPanic
        | Some correctChecksum =>
            GoError (ErrChecksum address correctChecksum (ToLower address))
        end
    end
  else GoOk tt.

(** [validateAddress] *)
Definition validateAddress (address network : string) : Go unit :=
  match strip_0x address with
  | None => GoError (ErrMissing0x address)
  | Some hexPart =>
      match first_non_hex 0 hexPart with
      | Some (c, i) => GoError (ErrNonHex c (i + 2) address)
      | None =>
          if String.eqb network "starknet" then validateStarknetAddress address hexPart
          else if String.eqb network "ethereum" then validateEthereumAddress address hexPart
          else GoError (ErrUnsupportedNetwork network)
      end
  end.

End CliValidation.

(** [validateToken] *)
Definition validateToken (token network : string) : option CliError :=
  if String.eqb network "starknet" then
    if negb (String.eqb token "ETH") && negb (String.eqb token "STRK")
    then Some (ErrInvalidStarknetToken token) else None
  else if String.eqb network "ethereum" then
    if negb (String.eqb token "ETH") then Some (ErrInvalidEthereumToken token) else None
  else Some (ErrUnsupportedNetwork network).

(** [networkAliases] of [root.go]. *)
Definition networkAliases : gmap string string :=
  list_to_map [("sn", "starknet"); ("stark", "starknet"); ("sn-sep", "starknet");
               ("eth", "ethereum"); ("eth-sep", "ethereum")].

(** Bytes below 128. On such strings Go's [strings.ToLower] and
    [strings.ToUpper] are the byte-wise ASCII mappings [ToLower] and [ToUpper];
    the command-line flags below are taken to be ASCII. *)
Fixpoint ascii_only (s : string) : bool :=
  match s with
  | EmptyString => true
  | String c r => (nat_of_ascii c <? 128)%nat && ascii_only r
  end.

(** [resolveNetwork] *)
Definition resolveNetwork (n : string) : string :=
  let n := ToLower n in
  match networkAliases !! n with
  | Some alias => alias
  | None => n
  end.

(** [ValidateNetwork]: it rewrites the global [network] to its resolved form;
    the new value of the global is returned beside the error. *)
Definition ValidateNetwork (network : string) : string * option CliError :=
  if String.eqb network "" then (network, Some ErrNetworkRequired)
  else
    let network := resolveNetwork network in
    if existsb (String.eqb network) ["starknet"; "ethereum"] then (network, None)
    else (network, Some (ErrInvalidNetwork network)).

(** [GetNetwork] *)
Definition GetNetwork (network : string) : string := resolveNetwork network.

(** The requests [runRequest] goes on to make: one [requestSingleToken] for
    [token], or one for [STRK] and then one for [ETH]. *)
Inductive RequestPlan := PlanSingle (token : string) | PlanBoth.

(** [runRequest] up to [cli.NewAPIClient] (lines 59-123): the checks that run
    before any terminal output or network call. [network], [token] and [both]
    are the flag globals; on success the selected network and the plan of
    requests follow. *)
Definition runRequest_validation (keccak256_hex : string -> string)
    (network address token : string) (both : bool) : Go (string * RequestPlan) :=
  let '(network, e) := ValidateNetwork network in
  match e with
  | Some e => GoError e
  | None =>
  let selectedNetwork := GetNetwork network in
  let detectedNetwork := detectAddressNetwork address in
  if negb (String.eqb detectedNetwork "") && negb (String.eqb detectedNetwork selectedNetwork)
  then GoError (ErrMismatch address selectedNetwork detectedNetwork (String.length address))
  else
  match validateAddress keccak256_hex address selectedNetwork with
  | GoError e => GoError e
  | GoPanic => GoPanic
  | GoOk _ =>
  let token :=
    if String.eqb token "" then
      if String.eqb selectedNetwork "starknet" then "STRK"
      else if String.eqb selectedNetwork "ethereum" then "ETH"
      else "ETH"
    else token in
  let token := ToUpper token in
  let both := if String.eqb token "BOTH" then true else both in
  match (if negb both then validateToken token selectedNetwork else None) with
  | Some e => GoError e
  | None =>
      if both && negb (String.eqb selectedNetwork "starknet") then GoError ErrBothOnlyStarknet
      else GoOk (selectedNetwork, if both then PlanBoth else PlanSingle token)
  end
  end
  end.

(** ** Handler construction ([NewMultiChainHandler], [NewHandler]) *)

(** [NewMultiChainHandler]. The parts of [cfg] and of the PoW generator the
    handlers read are passed as [maxRequestsPerDayIP], [powDifficulty],
    [verifyPoW] and [parseFloat]. [iter] is the order in which [for name :=
    range chainRegistry] visits the keys, which Go leaves unspecified: the
    statements below quantify over it. *)
Definition NewMultiChainHandler (maxRequestsPerDayIP powDifficulty : Z)
    (verifyPoW : string -> Z -> Z -> bool) (parseFloat : string -> float)
    (chainRegistry : gmap string Chain) (providerRegistry : gmap string ChainProvider)
    (iter : list string) : Handler :=
  let defaultNetwork :=
    match chainRegistry !! "starknet" with
    | Some _ => "starknet"
    | None =>
        match chainRegistry !! "ethereum" with
        | Some _ => "ethereum"
        | None => match iter with name :: _ => name | [] => "" end
        end
    end in
  mkHandler chainRegistry providerRegistry defaultNetwork
    maxRequestsPerDayIP powDifficulty verifyPoW parseFloat.

(** [NewHandler]; [chainName] is [chain.GetChainName()]. *)
Definition NewHandler (maxRequestsPerDayIP powDifficulty : Z)
    (verifyPoW : string -> Z -> Z -> bool) (parseFloat : string -> float)
    (chainName : string) (chain : Chain) (chainProvider : ChainProvider) : Handler :=
  mkHandler {[ chainName := chain ]} {[ chainName := chainProvider ]} chainName
    maxRequestsPerDayIP powDifficulty verifyPoW parseFloat.

(** ** [GetQuota] *)

(** The ["daily_limit"] object; [next_request_at] and [cooldown_end] are Go
    [*time.Time] values, [None] for [nil]. *)
Record DailyLimit := mkDailyLimit {
  dl_total : Z;
  dl_used : Z;
  dl_remaining : Z;
  dl_cooldown_end : option Z;
  dl_in_cooldown : bool
}.

(** The JSON map of [GetQuota]; a token entry holds [available] and
    [next_request_at]. *)
Record QuotaResponse := mkQuotaResponse {
  q_daily_limit : DailyLimit;
  q_hourly_throttle_by_network : gmap string (gmap string (bool * option Z))
}.

Inductive QuotaReply :=
| QuotaError (status : Z)            (* "Failed to get quota" *)
| QuotaOk (r : QuotaResponse).

(** The inner loop over [chain.GetSupportedTokens()]: a failed throttle check
    is skipped ([continue]); the key is [strings.ToLower(token)] (token
    symbols are ASCII). *)
Fixpoint quota_token_loop (ip networkName : string) (tokens : list string)
    (tokenThrottles : gmap string (bool * option Z)) : M (gmap string (bool * option Z)) :=
  match tokens with
  | [] => ret tokenThrottles
  | token :: rest =>
      let* r := CheckTokenHourlyThrottle ip networkName token in
      match r with
      | Err _ => quota_token_loop ip networkName rest tokenThrottles
      | Ok (available, nextTime) =>
          quota_token_loop ip networkName rest
            (<[ToLower token := (available, nextTime)]> tokenThrottles)
      end
  end.

(** The outer loop over [h.chains]. It visits the networks in the order of
    [map_to_list]; Go's order is unspecified, and only the order of the calls
    in the log depends on it. *)
Fixpoint quota_network_loop (ip : string) (chains : list (string * Chain))
    (networkThrottles : gmap string (gmap string (bool * option Z)))
    : M (gmap string (gmap string (bool * option Z))) :=
  match chains with
  | [] => ret networkThrottles
  | (networkName, chain) :: rest =>
      let* tokenThrottles := quota_token_loop ip networkName (GetSupportedTokens chain) ∅ in
      quota_network_loop ip rest (<[networkName := tokenThrottles]> networkThrottles)
  end.

(** [GetQuota] *)
Definition GetQuota (h : Handler) (ip : string) : M QuotaReply :=
  let* q := GetIPDailyQuota (h_MaxRequestsPerDayIP h) ip in
  match q with
  | Err _ => ret (QuotaError StatusInternalServerError)
  | Ok (used, remaining, cooldownEnd) =>
      let* networkThrottles := quota_network_loop ip (map_to_list (h_chains h)) ∅ in
      ret (QuotaOk (mkQuotaResponse
             (mkDailyLimit (h_MaxRequestsPerDayIP h) used remaining cooldownEnd
                (match cooldownEnd with Some _ => true | None => false end))
             networkThrottles))
  end.

(** ** [GetInfo] *)

Record LimitInfo := mkLimitInfo {
  li_StrkPerRequest : string;
  li_EthPerRequest : string;
  li_DailyRequestsPerIP : Z;
  li_TokenThrottleHours : Z
}.

Record InfoResponse := mkInfoResponse {
  ir_Network : string;
  ir_Limits : LimitInfo;
  ir_PoWEnabled : bool;
  ir_PoWDifficulty : Z;
  ir_BalanceSTRK : string;
  ir_BalanceETH : string;
  ir_AvailableNetworks : list string
}.

Inductive InfoReply :=
| InfoError (status : Z) (e : ErrorMsg)   (* [err.Error()] of [getChain] *)
| InfoOk (r : InfoResponse).

Section Info.

(** [chain.GetNetworkName()] and [fmt.Sprintf("%.<prec>f", x)]. *)
Variable GetNetworkName : Chain -> string.
Variable Sprintf_f : nat -> float -> string.

(** The loop over the supported tokens: [balances[token]] is ["0"] when the
    balance read fails, otherwise the amount with 4 decimals for [ETH] and 2
    for the other tokens. *)
Fixpoint info_balance_loop (chain : Chain) (chainProvider : ChainProvider)
    (tokens : list string) (balances : gmap string string) : M (gmap string string) :=
  match tokens with
  | [] => ret balances
  | token :: rest =>
      let* balance := chain_get_balance chain (GetFaucetAddress chainProvider) token in
      let v := match balance with
               | None => "0"
               | Some b => if String.eqb token "ETH" then Sprintf_f 4 b else Sprintf_f 2 b
               end in
      info_balance_loop chain chainProvider rest (<[token := v]> balances)
  end.

(** [balances[key]] with Go's zero value for a missing key, then the
    [if ... == "" { ... = "0" }] fallback. *)
Definition balance_field (balances : gmap string string) (key : string) : string :=
  let v := default "" (balances !! key) in
  if String.eqb v "" then "0" else v.

(** [GetInfo]; [network] is [c.Query("network", h.defaultNetwork)]. The
    available networks are listed in the order of [map_to_list]. *)
Definition GetInfo (h : Handler) (network : string) : M InfoReply :=
  let* gc := getChain h network in
  match gc with
  | inl e => ret (InfoError StatusBadRequest e)
  | inr (chain, chainProvider) =>
      let* balances := info_balance_loop chain chainProvider (GetSupportedTokens chain) ∅ in
      ret (InfoOk (mkInfoResponse (GetNetworkName chain)
             (mkLimitInfo (GetDripAmount chainProvider "STRK") (GetDripAmount chainProvider "ETH")
                (h_MaxRequestsPerDayIP h) 1)
             true (h_PoWDifficulty h)
             (balance_field balances "STRK") (balance_field balances "ETH")
             (map fst (map_to_list (h_chains h)))))
  end.

End Info.

(** ** Sequences of API calls *)

(** The three endpoints of the faucet API that touch the store. *)
Inductive ApiCall :=
| ApiRequestTokens (ip : string) (req : FaucetRequest)
| ApiGetStatus (ip address network : string)
| ApiGetQuota (ip : string).

(** The store left by one API call. *)
Definition api_store (h : Handler) (c : ApiCall) (w : World) : Store :=
  match c with
  | ApiRequestTokens ip req => w_store (fst (RequestTokens h ip req w))
  | ApiGetStatus ip address network => w_store (fst (GetStatus h ip address network w))
  | ApiGetQuota ip => w_store (fst (GetQuota h ip w))
  end.

(** A sequence of API calls run one after the other on a shared store, each
    with its own store faults and clock reading. *)
Fixpoint run_trace (h : Handler) (s : Store)
    (trace : list (ApiCall * (StoreOp -> bool) * Z)) : Store :=
  match trace with
  | [] => s
  | (c, down, now) :: rest => run_trace h (api_store h c (mkWorld s down now [])) rest
  end.

(** ** A concrete deployment used by the witnesses and counterexamples *)

(** A Starknet-like chain with tokens [STRK] and [ETH]; the faucet holds 1000
    STRK and 100 ETH. *)
Definition sample_chain : Chain :=
  mkChain (fun _ => true) (fun t => String.eqb t "ETH" || String.eqb t "STRK")
    ["STRK"; "ETH"]
    (fun _ t => if String.eqb t "STRK" then Some 1000%float else Some 100%float)
    (fun _ t _ => Some ("0xtx" +:+ t)).

(** Drip amounts 10 STRK and 93 ETH, caps of 1000 per hour and per day, and a
    7% reserve. *)
Definition sample_provider : ChainProvider :=
  mkChainProvider (fun t => if String.eqb t "STRK" then "10" else "93")
    (fun _ => 1000%float) (fun _ => 1000%float) 7 "0xfaucet".

Definition sample_parse_float (s : string) : float :=
  if String.eqb s "10" then 10%float else if String.eqb s "93" then 93%float else 0%float.

(** Five requests a day; a toy verifier that accepts the nonce 42. *)
Definition sample_handler : Handler :=
  mkHandler {[ "starknet" := sample_chain ]} {[ "starknet" := sample_provider ]}
    "starknet" 5 4 (fun _ nonce _ => Z.eqb nonce 42) sample_parse_float.

Definition sample_store : Store :=
  mkStore {[ "c1" := "seed1"; "c2" := "seed2" ]} ∅ ∅ ∅ ∅ ∅.

Definition no_faults : StoreOp -> bool := fun _ => false.

Definition sample_world : World := mkWorld sample_store no_faults 1000 [].

#[global] Instance StoreOp_eq_dec : EqDecision StoreOp.
Proof. solve_decision. Defined.

(** A store whose operation [op0] fails (connection error, timeout). *)
Definition down_only (op0 : StoreOp) : StoreOp -> bool := fun op => bool_decide (op = op0).

Definition sample_world_down (op0 : StoreOp) : World :=
  mkWorld sample_store (down_only op0) 1000 [].

Definition sample_req_strk : FaucetRequest :=
  mkFaucetRequest "0x1234" "starknet" "strk" "c1" 42.

Definition sample_req_eth : FaucetRequest :=
  mkFaucetRequest "0x1234" "starknet" "eth" "c1" 42.

Definition sample_req_both : FaucetRequest :=
  mkFaucetRequest "0x1234" "starknet" "both" "c1" 42.

(** * Proofs *)

Arguments ret _ _ _ /.
Arguments reply _ _ _ /.
Arguments bind _ _ _ _ _ /.
Arguments gate _ _ _ _ /.
Arguments err _ _ _ _ /.
Arguments store_call _ _ _ _ _ /.
Arguments log_call _ _ /.
Arguments getChain _ _ _ /.
Arguments chain_validate_address _ _ _ /.
Arguments chain_validate_token _ _ _ /.
Arguments chain_get_balance _ _ _ _ /.
Arguments chain_transfer _ _ _ _ _ /.
Arguments CheckIPDailyLimit _ _ _ /.
Arguments GetIPDailyQuota _ _ _ /.
Arguments IncrementIPDailyLimit _ _ _ _ /.
Arguments CheckTokenHourlyThrottle _ _ _ _ /.
Arguments SetTokenHourlyThrottle _ _ _ _ /.
Arguments GetChallenge _ _ /.
Arguments DeleteChallenge _ _ /.
Arguments TrackGlobalDistribution _ _ _ _ _ /.
Arguments set_challenges _ _ /.
Arguments set_daily _ _ /.
Arguments set_cooldown _ _ /.
Arguments set_throttle _ _ /.
Arguments set_global _ _ _ /.
Arguments handleBothTokensRequest _ _ _ _ _ _ /.

(** Case analysis on the innermost [match] of the goal, keeping the equation;
    a scrutinee already known from a hypothesis is rewritten instead. *)
Ltac case_inner :=
  match goal with
  | |- context [match ?x with _ => _ end] =>
      lazymatch x with
      | context [match _ with _ => _ end] => fail
      | _ =>
          first [ match goal with H : x = _ |- _ => rewrite H end
                | destruct x eqn:? ]
      end
  end.

(** Membership in a concrete list of calls. *)
Ltac solve_in := simpl; repeat (first [left; reflexivity | right]).

(** Boolean tests in hypotheses turned into propositions. *)
Ltac norm_bool :=
  repeat match goal with
  | H : (_ || _) = true |- _ => apply orb_true_iff in H as [H|H]
  | H : (_ || _) = false |- _ => apply orb_false_iff in H as [? ?]
  | H : (_ && _) = true |- _ => apply andb_true_iff in H as [? ?]
  | H : negb _ = true |- _ => apply negb_true_iff in H
  | H : negb _ = false |- _ => apply negb_false_iff in H
  | H : (_ <? _)%Z = true |- _ => apply Z.ltb_lt in H
  | H : (_ <? _)%Z = false |- _ => apply Z.ltb_ge in H
  | H : (_ <=? _)%Z = true |- _ => apply Z.leb_le in H
  | H : (_ <=? _)%Z = false |- _ => apply Z.leb_gt in H
  end.

(** Close the propositional goals left at the end of a path. *)
Ltac finish_split :=
  repeat match goal with
  | |- _ /\ _ => split
  | |- _ <-> _ => split
  | |- _ -> _ => intro
  | |- ~ _ => intro
  | H : _ /\ _ |- _ => destruct H
  | H : _ \/ _ |- _ => destruct H
  | H : exists _, _ |- _ => destruct H
  | H : False |- _ => destruct H
  | H : In _ ?l, Hl : forall _, In _ ?l -> _ |- _ => apply Hl in H
  | H : In _ (_ ++ _) |- _ => apply in_app_iff in H
  | H : In _ (map _ _) |- _ => apply in_map_iff in H
  end.

Ltac finish :=
  repeat (progress (finish_split; simplify_eq/=));
  norm_bool; try congruence; try solve [solve_in]; auto; try lia;
  try (eexists; reflexivity).

(** Run a handler symbolically along all of its paths. *)
Ltac run_paths := repeat (simpl; case_inner); simpl; intros; try discriminate; finish.

(** ** EIP-55 *)

Lemma ascii_lower_upper (c : ascii) :
  ascii_lower c = c -> ascii_lower (ascii_upper c) = c.
Proof.
  destruct c as [[] [] [] [] [] [] [] []]; vm_compute; congruence.
Qed.

Lemma ascii_lower_idem (c : ascii) : ascii_lower (ascii_lower c) = ascii_lower c.
Proof. destruct c as [[] [] [] [] [] [] [] []]; vm_compute; reflexivity. Qed.

Lemma ToLower_idem (s : string) : ToLower (ToLower s) = ToLower s.
Proof. induction s as [|c s IH]; simpl; [done | by rewrite ascii_lower_idem, IH]. Qed.

Lemma ToLower_length (s : string) : String.length (ToLower s) = String.length s.
Proof. induction s; simpl; auto. Qed.

Lemma apply_checksum_lower (k : nat) (addr hh r : string) :
  ToLower addr = addr -> apply_checksum k addr hh = Some r -> ToLower r = addr.
Proof.
  revert k r. induction addr as [|c addr IH]; intros k r Hl Ha; simpl in *.
  - by injection Ha as <-.
  - injection Hl as Hc Hl.
    destruct (apply_checksum (S k) addr hh) as [r'|] eqn:E; [|discriminate].
    pose proof (IH _ _ Hl E) as IH'.
    destruct (is_dec_digit c).
    + injection Ha as <-. simpl. by rewrite Hc, IH'.
    + destruct (String.get k hh) as [n|]; [|discriminate].
      injection Ha as <-. simpl. rewrite IH'.
      destruct (ascii_geb n "8"); [by rewrite ascii_lower_upper | by rewrite Hc].
Qed.

Lemma get_lt (i : nat) (s : string) :
  (i < String.length s)%nat -> exists c, String.get i s = Some c.
Proof.
  revert i. induction s as [|c s IH]; intros i Hi; simpl in *; [lia|].
  destruct i; [eauto|]. apply IH. lia.
Qed.

Lemma apply_checksum_some (k : nat) (addr hh : string) :
  (k + String.length addr <= String.length hh)%nat ->
  exists r, apply_checksum k addr hh = Some r.
Proof.
  revert k. induction addr as [|c addr IH]; intros k Hk; simpl in *; [eauto|].
  destruct (IH (S k)) as [r' ->]; [lia|].
  destruct (is_dec_digit c); [eauto|].
  destruct (get_lt k hh) as [n ->]; [lia|]. eauto.
Qed.

Lemma substring_0_all (s : string) : String.substring 0 (String.length s) s = s.
Proof. induction s; simpl; congruence. Qed.

Lemma toEIP55Checksum_prefixed (keccak : string -> string) (r : string) :
  toEIP55Checksum keccak ("0x" +:+ r) =
  (let addr := ToLower r in
   match apply_checksum 0 addr (keccak addr) with
   | Some r' => Some ("0x" +:+ r')
   | None => None
   end).
Proof.
  unfold toEIP55Checksum. simpl. rewrite Nat.sub_0_r, substring_0_all. reflexivity.
Qed.

Lemma is_eth_address_shape (a : string) :
  is_eth_address a = true -> exists h, a = ("0x" +:+ h)%string /\ String.length h = 40%nat.
Proof.
  intros Ha. destruct a as [|c0 [|c1 h]]; [discriminate| |].
  - destruct c0 as [[] [] [] [] [] [] [] []]; discriminate.
  - exists h. simpl in Ha.
    destruct c0 as [[] [] [] [] [] [] [] []]; try discriminate;
      destruct c1 as [[] [] [] [] [] [] [] []]; try discriminate.
    apply andb_true_iff in Ha as [Ha _]. split; [reflexivity | by apply Nat.eqb_eq].
Qed.

(** C10: for every address [0x] followed by 40 hex characters, and for any hash
    function with 64-character hex digests (as Keccak-256 has),
    [toEIP55Checksum] returns a result [r] without panicking,
    [toEIP55Checksum r = r] (idempotence), and [isValidEIP55Checksum r] is true. *)
Theorem toEIP55Checksum_idempotent (keccak256_hex : string -> string)
    (Hkeccak : forall s, String.length (keccak256_hex s) = 64%nat)
    (a : string) (Ha : is_eth_address a = true) :
  exists r, toEIP55Checksum keccak256_hex a = Some r /\
            toEIP55Checksum keccak256_hex r = Some r /\
            isValidEIP55Checksum keccak256_hex r = Some true.
Proof.
  destruct (is_eth_address_shape a Ha) as (h & -> & Hlen).
  rewrite toEIP55Checksum_prefixed. simpl.
  destruct (apply_checksum_some 0 (ToLower h) (keccak256_hex (ToLower h))) as [r Hr].
  { rewrite ToLower_length, Hkeccak. lia. }
  rewrite Hr. exists ("0x" +:+ r). split; [done|].
  assert (Hs : toEIP55Checksum keccak256_hex ("0x" +:+ r) = Some ("0x" +:+ r)).
  { rewrite toEIP55Checksum_prefixed. simpl.
    rewrite (apply_checksum_lower 0 (ToLower h) _ r (ToLower_idem h) Hr), Hr.
    reflexivity. }
  split; [done|].
  unfold isValidEIP55Checksum. rewrite Hs. f_equal. apply String.eqb_refl.
Qed.

Definition keccak_sample (s : string) : string :=
  "c5d2460186f7233c927e7db2dcc703c0e500b653ca82273b7bfad8045d85a470".

Lemma toEIP55Checksum_idempotent_witness :
  exists r, toEIP55Checksum keccak_sample "0x742d35cc6634c0532925a3b844bc9e7595f8d9f1" = Some r /\
            toEIP55Checksum keccak_sample r = Some r /\
            isValidEIP55Checksum keccak_sample r = Some true.
Proof.
  apply (toEIP55Checksum_idempotent keccak_sample).
  - intros s. reflexivity.
  - vm_compute. reflexivity.
Defined.

(** ** Commit only after a successful transfer *)

(** C4: for every single-token request, a run that does not end in a successful
    disbursement leaves the daily counter, the cooldown marker and every
    throttle marker exactly as they were: the commit writes
    ([IncrementIPDailyLimit], [SetTokenHourlyThrottle]) happen only after
    [TransferTokens] succeeded. *)
Theorem single_commit_only_after_success (h : Handler) (ip : string)
    (req : FaucetRequest) (w : World) (Hsingle : is_both req = false) :
  let '(w', x) := RequestTokens h ip req w in
  is_success x = false -> commit_state (w_store w') = commit_state (w_store w).
Proof.
  unfold is_both in Hsingle. unfold RequestTokens. rewrite Hsingle. run_paths.
Qed.

Lemma single_commit_only_after_success_witness :
  is_both sample_req_strk = false /\
  (let '(w', x) := RequestTokens sample_handler "10.0.0.1" sample_req_strk sample_world in
   is_success x = false -> commit_state (w_store w') = commit_state (w_store sample_world)).
Proof.
  split; [reflexivity|].
  exact (single_commit_only_after_success sample_handler "10.0.0.1" sample_req_strk
           sample_world eq_refl).
Defined.

(** ** The balance guard *)

(** C1 (counterexample, a defect of the code): balance 100, amount 93,
    reserve 7%: exactly the boundary [balance - amount = balance * p / 100]
    (7 = 7), which the code's own non-strict test [<] means to allow; the
    float64 guard denies it, since [7.0 / 100.0 * 100.0] rounds above [7].
    [RequestTokens] answers [503 "[LOW BALANCE]"] for the single ETH request,
    and the BOTH request, which runs the same guard, sends no ETH. *)
Lemma balance_guard_boundary_denied :
  (100 - 93) * 100 = 100 * 7 /\
  balance_guard_denies 100 93 7 = true /\
  snd (RequestTokens sample_handler "10.0.0.1" sample_req_eth sample_world) =
    Return (mkResponse StatusServiceUnavailable (ErrorBody (MsgLowBalance "ETH"))) /\
  In (CBalanceGuard "ETH")
    (w_log (fst (RequestTokens sample_handler "10.0.0.1" sample_req_both sample_world))) /\
  ~ In (CTransferTokens "ETH")
      (w_log (fst (RequestTokens sample_handler "10.0.0.1" sample_req_both sample_world))).
Proof. vm_compute. repeat split; [solve_in|]. intros H. repeat destruct H as [H|H]; try discriminate; contradiction. Qed.

(** ** The loops over token lists *)

Lemma prefix_map_in {A B} (f : A -> B) (l : list B) (xs : list A) :
  l `prefix_of` map f xs -> forall c, In c l -> exists a, c = f a /\ In a xs.
Proof.
  intros [k Hk] c Hc. assert (Hm : In c (map f xs)) by (rewrite Hk; apply in_or_app; left; done).
  apply in_map_iff in Hm as (a & <- & Ha). eauto.
Qed.

Lemma check_throttles_inv (ip network : string) (toks : list string) (w w' : World) (x : Exit unit) :
  check_throttles ip network toks w = (w', x) ->
  exists l, w' = mkWorld (w_store w) (w_down w) (w_now w) (w_log w ++ l) /\
    l `prefix_of` map CCheckTokenHourlyThrottle toks /\
    match x with
    | Continue _ =>
        l = map CCheckTokenHourlyThrottle toks /\
        forall t, In t toks ->
          w_down w OpCheckTokenHourlyThrottle = false /\
          throttle_live (w_now w) (w_store w) (ip, network, t) = false
    | Return r =>
        exists t l0, l = l0 ++ [CCheckTokenHourlyThrottle t] /\ In t toks /\
          throttle_rejection t network r
    end.
Proof.
  revert w. induction toks as [|t toks IH]; intros w H; simpl in H.
  - injection H as <- <-. exists []. rewrite app_nil_r.
    destruct w; split; [done|]. split; [done|]. split; [done|]. intros ? [].
  - unfold throttle_rejection, throttle_live in *.
    destruct (w_down w OpCheckTokenHourlyThrottle) eqn:Hd.
    + injection H as <- <-. exists [CCheckTokenHourlyThrottle t]. simpl.
      split; [done|]. split; [apply prefix_cons, prefix_nil|].
      exists t, []. split; [done|]. split; [left; done|]. left; done.
    + destruct (token_throttle (w_store w) !! (ip, network, t)) as [e|] eqn:Ht;
        [destruct (w_now w <? e) eqn:Hlt|].
      * injection H as <- <-. exists [CCheckTokenHourlyThrottle t]. simpl.
        split; [done|]. split; [apply prefix_cons, prefix_nil|].
        exists t, []. split; [done|]. split; [left; done|]. right; left. eexists; done.
      * destruct (IH _ H) as (l & -> & Hpre & Hx). simpl in Hx |- *.
        exists (CCheckTokenHourlyThrottle t :: l). rewrite <- app_assoc. simpl.
        split; [done|]. split; [by apply prefix_cons|].
        destruct x as [r|u].
        -- destruct Hx as (t' & l0 & -> & Hin & Hr).
           exists t', (CCheckTokenHourlyThrottle t :: l0). split; [done|]. split; [right; done|done].
        -- destruct Hx as [-> Hall]. split; [done|].
           intros t' [<-|Hin]; [rewrite Ht, Hlt; done|]. destruct (Hall t' Hin); split; congruence.
      * destruct (IH _ H) as (l & -> & Hpre & Hx). simpl in Hx |- *.
        exists (CCheckTokenHourlyThrottle t :: l). rewrite <- app_assoc. simpl.
        split; [done|]. split; [by apply prefix_cons|].
        destruct x as [r|u].
        -- destruct Hx as (t' & l0 & -> & Hin & Hr).
           exists t', (CCheckTokenHourlyThrottle t :: l0). split; [done|]. split; [right; done|done].
        -- destruct Hx as [-> Hall]. split; [done|].
           intros t' [<-|Hin]; [rewrite Ht; done|]. destruct (Hall t' Hin); split; congruence.
Qed.

Lemma set_global_id (s : Store) : set_global s (global_hourly s) (global_daily s) = s.
Proof. by destruct s. Qed.

Lemma store_eta (s : Store) :
  mkStore (challenges s) (ip_daily s) (ip_cooldown s) (token_throttle s)
    (global_hourly s) (global_daily s) = s.
Proof. by destruct s. Qed.

Lemma both_loop_inv (h : Handler) (chain : Chain) (prov : ChainProvider) (address : string)
    (toks : list string) (txs : list TransactionInfo) (w w' : World)
    (x : Exit (list TransactionInfo * string)) :
  both_loop h chain prov address toks txs w = (w', x) ->
  exists gh gd txs2 failed l,
    w' = mkWorld (set_global (w_store w) gh gd) (w_down w) (w_now w) (w_log w ++ l) /\
    x = Continue (txs ++ txs2, failed) /\
    ((toks = map tx_Token txs2 /\ failed = "" /\ l = concat (map per_token_calls toks)) \/
     (exists rest p, toks = map tx_Token txs2 ++ failed :: rest /\
        l = concat (map per_token_calls (map tx_Token txs2)) ++ p /\
        p <> [] /\ p `prefix_of` per_token_calls failed)).
Proof.
  revert txs w. induction toks as [|t toks IH]; intros txs w H; simpl in H.
  - injection H as <- <-.
    exists (global_hourly (w_store w)), (global_daily (w_store w)), [], "", [].
    rewrite set_global_id, !app_nil_r. destruct w; split; [done|]. split; [done|]. left; done.
  - revert H. repeat (simpl; case_inner); intros H.
    all: try (simpl in H; injection H as <- <-;
      do 2 eexists; exists [], t; eexists;
      split; [rewrite <- (store_eta (w_store w)); simpl; rewrite <- ?app_assoc; reflexivity|];
      split; [rewrite app_nil_r; reflexivity|];
      right; exists toks; eexists; split; [reflexivity|]; split; [simpl; reflexivity|];
      split; [simpl; discriminate|]; unfold per_token_calls; eexists; simpl; reflexivity).
    apply IH in H. simpl in H.
    destruct H as (gh & gd & txs2 & failed & l & -> & -> & Hshape).
    eexists gh, gd, (_ :: txs2), failed, (per_token_calls t ++ l).
    split; [simpl; rewrite <- ?app_assoc; reflexivity|].
    split; [rewrite <- app_assoc; reflexivity|].
    destruct Hshape as [(-> & -> & ->) | (rest & p & -> & -> & Hp & Hpre)];
      [left | right; exists rest, p]; simpl; rewrite ?app_assoc; auto.
Qed.

Lemma set_throttles_inv (ip network : string) (txs : list TransactionInfo) (w w' : World)
    (x : Exit unit) :
  set_throttles ip network txs w = (w', x) ->
  x = Continue tt /\
  exists m, w' = mkWorld (set_throttle (w_store w) m) (w_down w) (w_now w)
                   (w_log w ++ map (fun tx => CSetTokenHourlyThrottle (tx_Token tx)) txs) /\
    forall key, m !! key =
      if w_down w OpSetTokenHourlyThrottle then token_throttle (w_store w) !! key
      else if bool_decide (key ∈ map (fun tx => (ip, network, tx_Token tx)) txs)
           then Some (w_now w + TokenThrottleTTL)
           else token_throttle (w_store w) !! key.
Proof.
  revert w. induction txs as [|tx txs IH]; intros w H; simpl in H.
  - injection H as <- <-. split; [done|]. exists (token_throttle (w_store w)).
    rewrite app_nil_r. split.
    + destruct w as [[] ? ? ?]; done.
    + intros key. destruct (w_down w _); [done|]. rewrite bool_decide_false; [done|].
      simpl. apply not_elem_of_nil.
  - destruct (w_down w OpSetTokenHourlyThrottle) eqn:Hd.
    + apply IH in H. destruct H as [-> (m & -> & Hm)]. split; [done|]. exists m. simpl in Hm |- *.
      rewrite <- app_assoc. split; [done|]. intros key. rewrite Hm, Hd. done.
    + apply IH in H. destruct H as [-> (m & -> & Hm)]. split; [done|]. exists m. simpl in Hm |- *.
      rewrite <- app_assoc. split; [done|]. intros key. rewrite Hm, Hd.
      destruct (decide (key = (ip, network, tx_Token tx))) as [->|Hne].
      * rewrite lookup_insert_eq. rewrite (bool_decide_true (_ ∈ _ :: _)); [|left].
        destruct (bool_decide _); done.
      * rewrite lookup_insert_ne by congruence.
        destruct (bool_decide (key ∈ map _ txs)) eqn:Hb1.
        -- rewrite bool_decide_true; [done|]. right. by apply bool_decide_eq_true in Hb1.
        -- rewrite bool_decide_false; [done|]. intros Hin%elem_of_cons.
           destruct Hin as [?|Hin]; [done|]. apply bool_decide_eq_false in Hb1. done.
Qed.

Lemma shape_calls_in (toks : list string) (txs2 : list TransactionInfo) (failed : string)
    (l : list Call) :
  ((toks = map tx_Token txs2 /\ failed = "" /\ l = concat (map per_token_calls toks)) \/
   (exists rest p, toks = map tx_Token txs2 ++ failed :: rest /\
      l = concat (map per_token_calls (map tx_Token txs2)) ++ p /\
      p <> [] /\ p `prefix_of` per_token_calls failed)) ->
  forall c, In c l -> exists t, In t toks /\ In c (per_token_calls t).
Proof.
  intros [(-> & _ & ->) | (rest & p & -> & -> & _ & [k Hk])] c Hc.
  - apply in_concat in Hc as (cs & Hcs & Hc). apply in_map_iff in Hcs as (t & <- & Ht).
    eauto.
  - apply in_app_iff in Hc as [Hc|Hc].
    + apply in_concat in Hc as (cs & Hcs & Hc). apply in_map_iff in Hcs as (t & <- & Ht).
      exists t. split; [apply in_or_app; left; done | done].
    + exists failed. split; [apply in_or_app; right; left; done|].
      rewrite Hk. apply in_or_app. left. done.
Qed.

(** Symbolic execution of a handler path, using the loop lemmas above. *)
Ltac use_inv :=
  match goal with
  | H : check_throttles _ _ _ _ = (_, _) |- _ =>
      let l := fresh "l" in let Hpre := fresh "Hpre" in let Hx := fresh "Hx" in
      apply check_throttles_inv in H; destruct H as (l & -> & Hpre & Hx);
      pose proof (prefix_map_in _ _ _ Hpre)
  | H : both_loop _ _ _ _ _ _ _ = (_, _) |- _ =>
      let gh := fresh "gh" in let gd := fresh "gd" in let txs2 := fresh "txs" in
      let failed := fresh "failed" in let l := fresh "l" in let Hs := fresh "Hshape" in
      apply both_loop_inv in H; destruct H as (gh & gd & txs2 & failed & l & -> & -> & Hs);
      pose proof (shape_calls_in _ _ _ _ Hs)
  | H : set_throttles _ _ _ _ = (_, _) |- _ =>
      let m := fresh "m" in let Hm := fresh "Hm" in
      apply set_throttles_inv in H; destruct H as (-> & m & -> & Hm)
  end.

Ltac run_full :=
  repeat (simpl; first [use_inv | case_inner]); intros; simpl in *; unfold throttle_rejection in *;
  try discriminate; finish.

(** ** Daily quota *)

(** C2: once the daily check is evaluated (and the store answers), an active
    cooldown marker rejects the request with the remaining cooldown time,
    whatever the counter; without one, the request is rejected by the daily
    limit iff [used + requested_units > daily_cap], where [requested_units] is
    2 for [BOTH] and 1 otherwise. *)
Theorem daily_quota_check (h : Handler) (ip : string) (req : FaucetRequest) (w : World)
    (Hlog : w_log w = []) (Hup : w_down w OpCheckIPDailyLimit = false) :
  let cost := if is_both req then 2 else 1 in
  let cap := h_MaxRequestsPerDayIP h in
  let '(w', x) := RequestTokens h ip req w in
  In CCheckIPDailyLimit (w_log w') ->
  (forall t, active_cooldown (w_now w) (w_store w) ip = Some t ->
     x = Return (mkResponse StatusTooManyRequests (ErrorBody (cooldown_msg (t - w_now w))))) /\
  (active_cooldown (w_now w) (w_store w) ip = None ->
     ((exists used, x = Return (mkResponse StatusTooManyRequests
                                 (ErrorBody (MsgDailyExceeded used cap)))) <->
      cap < daily_used (w_store w) ip + cost)).
Proof.
  unfold is_both, RequestTokens. simpl. rewrite Hlog.
  destruct (String.eqb (ToUpper (req_Token req)) "BOTH") eqn:Hb; run_full.
Qed.


Lemma daily_quota_check_witness :
  w_log sample_world = [] /\ w_down sample_world OpCheckIPDailyLimit = false /\
  (let cost := if is_both sample_req_both then 2 else 1 in
   let cap := h_MaxRequestsPerDayIP sample_handler in
   let '(w', x) := RequestTokens sample_handler "10.0.0.1" sample_req_both sample_world in
   In CCheckIPDailyLimit (w_log w') ->
   (forall t, active_cooldown (w_now sample_world) (w_store sample_world) "10.0.0.1" = Some t ->
      x = Return (mkResponse StatusTooManyRequests
                    (ErrorBody (cooldown_msg (t - w_now sample_world))))) /\
   (active_cooldown (w_now sample_world) (w_store sample_world) "10.0.0.1" = None ->
      ((exists used, x = Return (mkResponse StatusTooManyRequests
                                  (ErrorBody (MsgDailyExceeded used cap)))) <->
       cap < daily_used (w_store sample_world) "10.0.0.1" + cost))).
Proof.
  split; [reflexivity|]. split; [reflexivity|].
  apply (daily_quota_check sample_handler "10.0.0.1" sample_req_both sample_world);
    reflexivity.
Defined.

(** ** Store failures at the challenge lookup *)

(** A failed challenge read, whether the store errs or the id is unknown,
    ends the request with the 400 challenge rejection. *)
Lemma challenge_lookup_failure_rejects (h : Handler) (ip : string)
    (req : FaucetRequest) (w : World) (Hlog : w_log w = [])
    (Hfault : w_down w OpGetChallenge = true \/
              challenges (w_store w) !! req_ChallengeID req = None) :
  let '(w', x) := RequestTokens h ip req w in
  In CGetChallenge (w_log w') ->
  x = Return (mkResponse StatusBadRequest (ErrorBody MsgInvalidChallenge)).
Proof.
  unfold RequestTokens. simpl. rewrite Hlog.
  destruct Hfault as [Hd|Hn];
    destruct (String.eqb (ToUpper (req_Token req)) "BOTH") eqn:Hb; run_full.
Qed.

(** C6: a failure of the store while reading the challenge is not reported as
    a "try again" error: the response is the 400 "Invalid or expired
    challenge" PoW rejection, the very response of a missing challenge. *)
Theorem challenge_store_fault_is_pow_rejection (h : Handler) (ip : string)
    (req : FaucetRequest) (w : World) (Hlog : w_log w = [])
    (Hfault : w_down w OpGetChallenge = true \/
              challenges (w_store w) !! req_ChallengeID req = None) :
  let '(w', x) := RequestTokens h ip req w in
  In CGetChallenge (w_log w') ->
  x = Return (mkResponse StatusBadRequest (ErrorBody MsgInvalidChallenge)).
Proof. apply challenge_lookup_failure_rejects; assumption. Qed.

Lemma challenge_store_fault_is_pow_rejection_witness :
  w_log (sample_world_down OpGetChallenge) = [] /\
  (w_down (sample_world_down OpGetChallenge) OpGetChallenge = true \/
   challenges (w_store (sample_world_down OpGetChallenge)) !! req_ChallengeID sample_req_strk
     = None) /\
  (let '(w', x) := RequestTokens sample_handler "10.0.0.1" sample_req_strk
                     (sample_world_down OpGetChallenge) in
   In CGetChallenge (w_log w') ->
   x = Return (mkResponse StatusBadRequest (ErrorBody MsgInvalidChallenge))).
Proof.
  split; [reflexivity|]. split; [left; reflexivity|].
  apply (challenge_store_fault_is_pow_rejection sample_handler "10.0.0.1" sample_req_strk
           (sample_world_down OpGetChallenge)); [reflexivity | left; reflexivity].
Defined.

(** The same store failure one gate earlier is reported as a 500 error, and the
    failure at the challenge lookup gives exactly the response of an unknown
    challenge id. *)
Lemma store_fault_responses_sample :
  snd (RequestTokens sample_handler "10.0.0.1" sample_req_strk
         (sample_world_down OpCheckIPDailyLimit)) =
    Return (mkResponse StatusInternalServerError (ErrorBody MsgFailedCheckRateLimit)) /\
  snd (RequestTokens sample_handler "10.0.0.1" sample_req_strk
         (sample_world_down OpGetChallenge)) =
    Return (mkResponse StatusBadRequest (ErrorBody MsgInvalidChallenge)) /\
  snd (RequestTokens sample_handler "10.0.0.1"
         (mkFaucetRequest "0x1234" "starknet" "strk" "unknown" 42) sample_world) =
    Return (mkResponse StatusBadRequest (ErrorBody MsgInvalidChallenge)).
Proof. vm_compute. repeat split. Qed.

(** ** Status query *)

Lemma status_can_request_eq (h : Handler) (ip address network : string) (w : World)
    (r : StatusResponse) :
  snd (GetStatus h ip address network w) = Return (mkResponse StatusOK (StatusBody r)) ->
  sr_Address r = address /\
  sr_CanRequest r = (daily_used (w_store w) ip <? h_MaxRequestsPerDayIP h) &&
                    bool_decide (active_cooldown (w_now w) (w_store w) ip = None) /\
  sr_NextRequestTime r = None /\ sr_RemainingHours r = None.
Proof.
  unfold GetStatus. repeat (simpl; case_inner); simpl; try discriminate.
  intros [= <-]. simpl. split; [done|]. split; [|done].
  f_equal. destruct (Z.ltb_spec 0 (Z.max 0 (h_MaxRequestsPerDayIP h - daily_used (w_store w) ip)));
    destruct (Z.ltb_spec (daily_used (w_store w) ip) (h_MaxRequestsPerDayIP h)); lia.
Qed.

(** C9: the can-request flag of a status response is computed from the
    requesting IP's daily quota and cooldown only: it is true iff the IP has
    quota left and no active cooldown, it is the same for every queried
    address, and the next-request-time and remaining-hours fields are never
    set. *)
Theorem status_eligibility_by_ip (h : Handler) (ip address address' network : string)
    (w : World) (r r' : StatusResponse)
    (Hr : snd (GetStatus h ip address network w) = Return (mkResponse StatusOK (StatusBody r)))
    (Hr' : snd (GetStatus h ip address' network w) = Return (mkResponse StatusOK (StatusBody r'))) :
  (sr_CanRequest r = true <->
   daily_used (w_store w) ip < h_MaxRequestsPerDayIP h /\
   active_cooldown (w_now w) (w_store w) ip = None) /\
  sr_CanRequest r' = sr_CanRequest r /\
  sr_NextRequestTime r = None /\ sr_RemainingHours r = None.
Proof.
  apply status_can_request_eq in Hr as (_ & Hc & Hn & Hh).
  apply status_can_request_eq in Hr' as (_ & Hc' & _ & _).
  rewrite Hc', Hc. split; [|done].
  rewrite andb_true_iff, Z.ltb_lt, bool_decide_eq_true. done.
Qed.

Lemma status_eligibility_by_ip_witness :
  snd (GetStatus sample_handler "10.0.0.1" "0x1234" "starknet" sample_world) =
    Return (mkResponse StatusOK (StatusBody (mkStatusResponse "0x1234" true None None))) /\
  snd (GetStatus sample_handler "10.0.0.1" "0x5678" "starknet" sample_world) =
    Return (mkResponse StatusOK (StatusBody (mkStatusResponse "0x5678" true None None))) /\
  ((sr_CanRequest (mkStatusResponse "0x1234" true None None) = true <->
    daily_used (w_store sample_world) "10.0.0.1" < h_MaxRequestsPerDayIP sample_handler /\
    active_cooldown (w_now sample_world) (w_store sample_world) "10.0.0.1" = None) /\
   sr_CanRequest (mkStatusResponse "0x5678" true None None) =
     sr_CanRequest (mkStatusResponse "0x1234" true None None) /\
   sr_NextRequestTime (mkStatusResponse "0x1234" true None None) = None /\
   sr_RemainingHours (mkStatusResponse "0x1234" true None None) = None).
Proof.
  split; [vm_compute; reflexivity|]. split; [vm_compute; reflexivity|].
  apply (status_eligibility_by_ip sample_handler "10.0.0.1" "0x1234" "0x5678" "starknet"
           sample_world); vm_compute; reflexivity.
Defined.

(** ** Single use of challenges *)

Lemma preceded_by_app_skip (p q : Call -> bool) (l L : list Call) :
  (forall c, In c l -> p c = false /\ q c = false) ->
  preceded_by p q (l ++ L) = preceded_by p q L.
Proof.
  induction l as [|c l IH]; intros Hl; [done|]. simpl.
  destruct (Hl c (or_introl eq_refl)) as [-> ->]. simpl.
  apply IH. intros c' Hc'. apply Hl. right. done.
Qed.

(** No request adds a challenge to the store. *)
Lemma RequestTokens_no_new_challenge (h : Handler) (ip : string) (req : FaucetRequest)
    (w : World) (id : string) (Hn : challenges (w_store w) !! id = None) :
  let '(w', x) := RequestTokens h ip req w in challenges (w_store w') !! id = None.
Proof.
  unfold RequestTokens. simpl.
  destruct (String.eqb (ToUpper (req_Token req)) "BOTH") eqn:Hb; run_full;
    rewrite ?lookup_delete_None; auto.
Qed.

(** C3, the behaviour the claim describes, on the path where the store
    deletes the challenge: the deletion happens right after the PoW check and
    before every disbursement gate (global distribution, balance, balance
    guard, transfer), whatever those gates decide; the id is then absent from
    the store, no later request brings it back, and every later submission
    with that id that reaches the challenge lookup is rejected with the 400
    challenge error. *)
Theorem challenge_single_use (h : Handler) (ip : string) (req : FaucetRequest) (w : World)
    (Hlog : w_log w = []) :
  let '(w1, x1) := RequestTokens h ip req w in
  In CDeleteChallenge (w_log w1) -> w_down w OpDeleteChallenge = false ->
  preceded_by is_delete is_disbursement_gate (w_log w1) = true /\
  challenges (w_store w1) !! req_ChallengeID req = None /\
  forall (h2 : Handler) (ip2 : string) (req2 : FaucetRequest) (w2 : World),
    challenges (w_store w2) !! req_ChallengeID req = None ->
    let '(w2', x2) := RequestTokens h2 ip2 req2 w2 in
    challenges (w_store w2') !! req_ChallengeID req = None /\
    (w_log w2 = [] -> req_ChallengeID req2 = req_ChallengeID req ->
     In CGetChallenge (w_log w2') ->
     x2 = Return (mkResponse StatusBadRequest (ErrorBody MsgInvalidChallenge))).
Proof.
  destruct (RequestTokens h ip req w) as [w1 x1] eqn:Hrun.
  intros Hin Hup. split; [|split].
  - revert Hrun Hin. unfold RequestTokens. simpl. rewrite Hlog.
    destruct (String.eqb (ToUpper (req_Token req)) "BOTH") eqn:Hb;
      repeat (simpl; first [use_inv | case_inner]); simpl in *; intros; simplify_eq/=;
      rewrite <- ?app_assoc; simpl;
      rewrite ?preceded_by_app_skip; try reflexivity; try (finish; fail).
    all: intros c Hc; match goal with Hl : forall _, In _ ?l -> _, Hc : In _ ?l |- _ =>
           destruct (Hl _ Hc) as (? & -> & _) end; split; reflexivity.
  - pose proof (RequestTokens_no_new_challenge h ip req w) as _.
    revert Hrun Hin. unfold RequestTokens. simpl. rewrite Hlog.
    destruct (String.eqb (ToUpper (req_Token req)) "BOTH") eqn:Hb; run_full;
      rewrite ?lookup_delete_eq; auto.
  - intros h2 ip2 req2 w2 Hn2.
    pose proof (RequestTokens_no_new_challenge h2 ip2 req2 w2 _ Hn2) as Hkeep.
    pose proof (fun Hl2 Hid => challenge_lookup_failure_rejects h2 ip2 req2 w2 Hl2
                                 (or_intror (eq_ind_r (fun i => _ !! i = None) Hn2 Hid))) as Hrej.
    destruct (RequestTokens h2 ip2 req2 w2) as [w2' x2].
    split; [exact Hkeep|]. intros Hl2 Hid. exact (Hrej Hl2 Hid).
Qed.

Lemma challenge_single_use_witness :
  w_log sample_world = [] /\
  (let '(w1, x1) := RequestTokens sample_handler "10.0.0.1" sample_req_strk sample_world in
   In CDeleteChallenge (w_log w1) -> w_down sample_world OpDeleteChallenge = false ->
   preceded_by is_delete is_disbursement_gate (w_log w1) = true /\
   challenges (w_store w1) !! req_ChallengeID sample_req_strk = None /\
   forall (h2 : Handler) (ip2 : string) (req2 : FaucetRequest) (w2 : World),
     challenges (w_store w2) !! req_ChallengeID sample_req_strk = None ->
     let '(w2', x2) := RequestTokens h2 ip2 req2 w2 in
     challenges (w_store w2') !! req_ChallengeID sample_req_strk = None /\
     (w_log w2 = [] -> req_ChallengeID req2 = req_ChallengeID sample_req_strk ->
      In CGetChallenge (w_log w2') ->
      x2 = Return (mkResponse StatusBadRequest (ErrorBody MsgInvalidChallenge)))).
Proof.
  split; [reflexivity|].
  apply (challenge_single_use sample_handler "10.0.0.1" sample_req_strk sample_world);
    reflexivity.
Defined.

(** C3 (counterexample, a defect of the code): when the store fails to
    delete the challenge, the handler only logs the failure ("Delete challenge
    to prevent reuse") and serves the request; the same challenge id and nonce,
    submitted again at the same instant from another IP, pass the PoW check
    again and tokens are sent a second time. *)
Lemma challenge_replay_on_delete_fault :
  let '(w1, x1) := RequestTokens sample_handler "10.0.0.1" sample_req_strk
                     (sample_world_down OpDeleteChallenge) in
  let '(w2, x2) := RequestTokens sample_handler "10.0.0.2" sample_req_strk
                     (mkWorld (w_store w1) (down_only OpDeleteChallenge) 1000 []) in
  w_now (sample_world_down OpDeleteChallenge) = 1000 /\
  is_success x1 = true /\ is_success x2 = true /\
  In CVerifyPoW (w_log w2) /\ In (CTransferTokens "STRK") (w_log w2) /\
  challenges (w_store w2) !! "c1" = Some "seed1".
Proof. vm_compute. repeat split; solve_in. Qed.

(** ** Charging of BOTH requests *)

(** C5, amended: when a BOTH request disburses at least one token (a 200
    response), the daily counter is charged the full 2 units whatever the
    number of tokens sent, throttle markers are set exactly for the tokens
    sent, and the message either reports both sent (no token failed) or
    reports partial success naming the first token that failed. *)
Theorem both_partial_charging (h : Handler) (ip : string) (req : FaucetRequest) (w : World)
    (chain : Chain) (Hboth : is_both req = true) (Hlog : w_log w = [])
    (Hc : h_chains h !! network_or_default h (req_Network req) = Some chain)
    (Hinc : w_down w OpIncrementIPDailyLimit = false)
    (Hset : w_down w OpSetTokenHourlyThrottle = false) :
  let net := network_or_default h (req_Network req) in
  let '(w', x) := RequestTokens h ip req w in
  forall fr, x = Return (mkResponse StatusOK (FaucetBody fr)) ->
    daily_used (w_store w') ip = daily_used (w_store w) ip + 2 /\
    (forall key, token_throttle (w_store w') !! key =
       if bool_decide (key ∈ map (fun tx => (ip, net, tx_Token tx)) (fr_Transactions fr))
       then Some (w_now w + TokenThrottleTTL) else token_throttle (w_store w) !! key) /\
    fr_Transactions fr <> [] /\
    ((GetSupportedTokens chain = map tx_Token (fr_Transactions fr) /\
      fr_Message fr = MsgBothSent) \/
     (exists failed rest,
        GetSupportedTokens chain = map tx_Token (fr_Transactions fr) ++ failed :: rest /\
        fr_Message fr = if String.eqb failed "" then MsgBothSent
                        else MsgPartial (Z.of_nat (length (fr_Transactions fr))) failed)).
Proof.
  unfold is_both in Hboth. unfold RequestTokens. simpl. rewrite Hlog, Hboth.
  run_full.
  all: unfold daily_used in *; simpl in *; rewrite ?lookup_insert_eq; simpl; try lia.
  all: try (rewrite Hm, Hset; reflexivity).
  all: first [ left; split; [assumption | reflexivity]
             | right; do 2 eexists; split; [eassumption|];
               match goal with H : String.eqb _ _ = _ |- _ => rewrite H end; reflexivity ].
Qed.

Lemma both_partial_charging_witness :
  is_both sample_req_both = true /\ w_log sample_world = [] /\
  h_chains sample_handler !! network_or_default sample_handler (req_Network sample_req_both)
    = Some sample_chain /\
  w_down sample_world OpIncrementIPDailyLimit = false /\
  w_down sample_world OpSetTokenHourlyThrottle = false /\
  (let net := network_or_default sample_handler (req_Network sample_req_both) in
   let '(w', x) := RequestTokens sample_handler "10.0.0.1" sample_req_both sample_world in
   forall fr, x = Return (mkResponse StatusOK (FaucetBody fr)) ->
     daily_used (w_store w') "10.0.0.1" = daily_used (w_store sample_world) "10.0.0.1" + 2 /\
     (forall key, token_throttle (w_store w') !! key =
        if bool_decide (key ∈ map (fun tx => ("10.0.0.1", net, tx_Token tx)) (fr_Transactions fr))
        then Some (w_now sample_world + TokenThrottleTTL)
        else token_throttle (w_store sample_world) !! key) /\
     fr_Transactions fr <> [] /\
     ((GetSupportedTokens sample_chain = map tx_Token (fr_Transactions fr) /\
       fr_Message fr = MsgBothSent) \/
      (exists failed rest,
         GetSupportedTokens sample_chain = map tx_Token (fr_Transactions fr) ++ failed :: rest /\
         fr_Message fr = if String.eqb failed "" then MsgBothSent
                         else MsgPartial (Z.of_nat (length (fr_Transactions fr))) failed))).
Proof.
  do 5 (split; [reflexivity|]).
  apply (both_partial_charging sample_handler "10.0.0.1" sample_req_both sample_world
           sample_chain); reflexivity.
Defined.

(** C5 fails as stated: the sample BOTH request sends STRK, then ETH fails the
    balance guard; the response reports partial success naming ETH, the
    throttle marker is set for STRK only, but the daily counter is charged 2
    units for the single token sent. *)
Lemma both_partial_charges_two_units :
  let '(w', x) := RequestTokens sample_handler "10.0.0.1" sample_req_both sample_world in
  x = Return (mkResponse StatusOK
         (FaucetBody (mkFaucetResponse true "" "" ""
                        [mkTransactionInfo "STRK" "10" "0xtxSTRK"] (MsgPartial 1 "ETH")))) /\
  daily_used (w_store w') "10.0.0.1" = 2 /\
  token_throttle (w_store w') !! ("10.0.0.1", "starknet", "STRK") = Some 4600 /\
  token_throttle (w_store w') !! ("10.0.0.1", "starknet", "ETH") = None.
Proof. vm_compute. repeat split. Qed.

(** ** Hourly throttle *)

(** A transfer of [tok] is made only by a request whose throttle check for
    [tok] found no live marker. *)
Lemma transfer_requires_throttle_pass (h : Handler) (ip : string) (req : FaucetRequest)
    (w : World) (tok : string) (Hlog : w_log w = []) :
  let '(w', x) := RequestTokens h ip req w in
  In (CTransferTokens tok) (w_log w') ->
  throttle_live (w_now w) (w_store w) (ip, network_or_default h (req_Network req), tok) = false.
Proof.
  unfold RequestTokens. simpl. rewrite Hlog.
  destruct (String.eqb (ToUpper (req_Token req)) "BOTH") eqn:Hb; run_full.
  all: first
    [ match goal with Hall : forall t, In t ?L -> _ /\ _, Ht : In _ ?L |- _ =>
        exact (proj2 (Hall _ Ht)) end
    | unfold throttle_live;
      match goal with H : token_throttle _ !! _ = _ |- _ => rewrite H end;
      try reflexivity; apply Z.ltb_ge; lia ].
Qed.

(** A marker write for [tok] that the store accepts leaves a marker expiring
    one hour after the request. *)
Lemma throttle_marker_written (h : Handler) (ip : string) (req : FaucetRequest) (w : World)
    (tok : string) (Hlog : w_log w = []) (Hset : w_down w OpSetTokenHourlyThrottle = false) :
  let '(w', x) := RequestTokens h ip req w in
  In (CSetTokenHourlyThrottle tok) (w_log w') ->
  token_throttle (w_store w') !! (ip, network_or_default h (req_Network req), tok) =
    Some (w_now w + TokenThrottleTTL).
Proof.
  unfold RequestTokens. simpl. rewrite Hlog.
  destruct (String.eqb (ToUpper (req_Token req)) "BOTH") eqn:Hb; run_full.
  all: first
    [ match goal with Hm : forall key, ?m !! key = _ |- ?m !! _ = _ => rewrite Hm end;
      rewrite Hset, bool_decide_true; [reflexivity|];
      apply list_elem_of_In, in_map_iff; eexists; split; [reflexivity | assumption]
    | rewrite lookup_insert_eq; reflexivity ].
Qed.

Lemma check_throttles_pass (ip network : string) (toks : list string) (w : World) :
  snd (check_throttles ip network toks w) = Continue tt <->
  forall t, In t toks ->
    w_down w OpCheckTokenHourlyThrottle = false /\
    throttle_live (w_now w) (w_store w) (ip, network, t) = false.
Proof.
  revert w. induction toks as [|a toks IH]; intros w; simpl.
  - split; [intros _ t []|done].
  - unfold throttle_live in *. destruct (w_down w OpCheckTokenHourlyThrottle) eqn:Hd; simpl.
    + split; [discriminate|]. intros H. destruct (H a (or_introl eq_refl)). congruence.
    + destruct (token_throttle (w_store w) !! (ip, network, a)) as [e|] eqn:Ht;
        [destruct (w_now w <? e) eqn:Hlt|]; simpl.
      * split; [discriminate|]. intros H. destruct (H a (or_introl eq_refl)) as [_ H2].
        rewrite Ht, Hlt in H2. discriminate.
      * rewrite IH. simpl. split; intros H.
        -- intros t [<-|Hin]; [rewrite Ht, Hlt; done | destruct (H t Hin); split; congruence].
        -- intros t Hin. destruct (H t (or_intror Hin)); split; congruence.
      * rewrite IH. simpl. split; intros H.
        -- intros t [<-|Hin]; [rewrite Ht; done | destruct (H t Hin); split; congruence].
        -- intros t Hin. destruct (H t (or_intror Hin)); split; congruence.
Qed.

(** C7 fails as stated: when the store fails to write the throttle marker,
    the failure is only logged, and an identical request at the same instant
    (with a fresh challenge) is served again: STRK is disbursed twice to the
    same ip on the same network within the hour. *)
Lemma throttle_write_fault_double_disbursement :
  let w0 := sample_world_down OpSetTokenHourlyThrottle in
  let '(w1, x1) := RequestTokens sample_handler "10.0.0.1" sample_req_strk w0 in
  let '(w2, x2) := RequestTokens sample_handler "10.0.0.1"
                     (mkFaucetRequest "0x1234" "starknet" "strk" "c2" 42)
                     (mkWorld (w_store w1) (down_only OpSetTokenHourlyThrottle) 1000 []) in
  is_success x1 = true /\ is_success x2 = true /\
  In (CTransferTokens "STRK") (w_log w1) /\ In (CTransferTokens "STRK") (w_log w2).
Proof. vm_compute. repeat split; solve_in. Qed.

(** ** Gate ordering *)

(** The gate order of single-token requests. *)
Lemma single_gate_order_paths (h : Handler) (ip : string) (req : FaucetRequest) (w : World)
    (Hsingle : is_both req = false) (Hlog : w_log w = []) :
  let '(w', x) := RequestTokens h ip req w in
  single_order (ToUpper (req_Token req)) (w_log w') x.
Proof.
  unfold is_both in Hsingle. unfold single_order, RequestTokens. rewrite Hsingle. simpl. rewrite Hlog.
  run_full.
  all: eexists; split; [reflexivity|];
    unfold rejected_by, throttle_rejection, cooldown_msg;
    first [naive_solver | exists ""; naive_solver].
Qed.

Lemma filter_nq_id (l : list Call) :
  (forall c, In c l -> is_quota_read c = false) ->
  filter (fun c => negb (is_quota_read c)) l = l.
Proof.
  induction l as [|c l IH]; intros Hl; [done|].
  rewrite filter_cons. rewrite decide_True.
  - f_equal. apply IH. intros c' Hc'. apply Hl. right. exact Hc'.
  - rewrite (Hl c (or_introl eq_refl)). reflexivity.
Qed.

Lemma filter_nq_cons (c : Call) (l : list Call) :
  filter (fun c => negb (is_quota_read c)) (c :: l) =
  if is_quota_read c then filter (fun c => negb (is_quota_read c)) l
  else c :: filter (fun c => negb (is_quota_read c)) l.
Proof.
  rewrite filter_cons. case_decide as Hd; destruct (is_quota_read c); simpl in *;
    first [reflexivity | contradiction].
Qed.

Lemma filter_nq_checks (ts : list string) :
  filter (fun c => negb (is_quota_read c)) (map CCheckTokenHourlyThrottle ts) =
  map CCheckTokenHourlyThrottle ts.
Proof.
  apply filter_nq_id. intros c Hc. apply in_map_iff in Hc as (t & <- & _). reflexivity.
Qed.

Ltac nq_simpl :=
  repeat (rewrite ?filter_app, ?filter_nq_cons, ?filter_nil, ?filter_nq_checks; simpl);
  try match goal with
      | |- context [filter _ ?l] =>
          is_var l; rewrite (filter_nq_id l);
          [| let c0 := fresh in let Hc0 := fresh in intros c0 Hc0;
             match goal with H : forall c, In c l -> exists a, c = _ /\ _ |- _ =>
               destruct (H c0 Hc0) as (? & -> & _); reflexivity end]
      end.

Ltac close_prefix :=
  nq_simpl; unfold both_prefix; simpl; rewrite <- ?app_assoc; simpl;
  repeat apply prefix_cons;
  first [ apply prefix_nil
        | apply prefix_app_r; assumption
        | apply prefix_app; simpl; repeat apply prefix_cons; apply prefix_nil ].

Ltac close_no_delete :=
  let Hin := fresh in intros Hin;
  repeat (first [rewrite in_app_iff in Hin | progress simpl in Hin]);
  repeat destruct Hin as [Hin|Hin]; try discriminate; try contradiction;
  first [ apply in_map_iff in Hin as (? & ? & _); discriminate
        | match goal with H : forall c, In c _ -> exists a, c = _ /\ _ |- _ =>
            destruct (H _ Hin) as (? & ? & _); discriminate end ].

Ltac close_last :=
  let r := fresh in let Hr := fresh in intros r Hr; injection Hr as <-;
  repeat match goal with H : exists _, _ |- _ => destruct H | H : _ /\ _ |- _ => destruct H end;
  subst; eexists; split;
  [ rewrite ?app_comm_cons, ?last_snoc; reflexivity
  | unfold rejected_by, throttle_rejection, cooldown_msg; first [naive_solver | exists ""; naive_solver] ].

Ltac close_post :=
  match goal with Hs : (_ = map tx_Token ?txs /\ ?failed = "" /\ ?l0 = _) \/ _ |- _ =>
    exists txs, failed, l0; split; [exact Hs|] end;
  first
    [ left; split;
      [ match goal with Ht : (0 <? length ?txs)%nat = false |- ?txs = [] =>
          destruct txs; [reflexivity | simpl in Ht; discriminate] end
      | split; [unfold both_prefix; simpl; rewrite <- ?app_assoc; simpl; reflexivity | reflexivity] ]
    | right; split;
      [ let E := fresh in intros E; subst; simpl in *; discriminate
      | split;
        [ unfold both_prefix; simpl; rewrite <- ?app_assoc; simpl; reflexivity
        | eexists; split; [reflexivity | split; [reflexivity |]];
          simpl; match goal with H : String.eqb _ "" = _ |- _ => rewrite H end; reflexivity ] ] ].

Lemma both_gate_order_paths (h : Handler) (ip : string) (req : FaucetRequest) (w : World)
    (Hboth : is_both req = true) (Hlog : w_log w = []) :
  let '(w', x) := RequestTokens h ip req w in both_order (both_tokens h req) (w_log w') x.
Proof.
  unfold both_order, both_loop_shape.
  unfold is_both in Hboth. unfold both_tokens, RequestTokens. simpl. rewrite Hlog, Hboth.
  repeat (simpl; first [use_inv | case_inner]); intros; simpl in *; try discriminate.
  all: repeat match goal with Hx : ?l = map _ _ /\ _ |- _ => destruct Hx as [-> ?] end.
  all: first [ left; split; [close_prefix | split; [close_no_delete | close_last]] | right; close_post ].
Qed.

(** C8, amended: for every request, the calls made (leaving out the quota read
    of a daily-limit rejection) follow a fixed order. A single-token request
    runs a prefix of network, address, token, daily quota, hourly throttle,
    challenge, PoW, challenge deletion, global distribution, balance, balance
    guard, transfer, commits; a rejection is the response of the last call
    made, so no later gate runs; a success runs the whole sequence. A BOTH
    request runs a prefix of network, address, daily quota, the hourly
    throttle of every supported token in turn, challenge, PoW, challenge
    deletion, and is rejected by the last of them if it stops there; past the
    deletion it runs, token after token, global distribution, balance, balance
    guard and transfer, stopping at the first failed gate; then it answers 500
    naming the failed token if nothing was sent, and otherwise makes the
    commits and answers 200, a partial success naming the failed token if
    there is one. *)
Theorem gate_order (h : Handler) (ip : string) (req : FaucetRequest) (w : World)
    (Hlog : w_log w = []) :
  let '(w', x) := RequestTokens h ip req w in
  if is_both req then both_order (both_tokens h req) (w_log w') x
  else single_order (ToUpper (req_Token req)) (w_log w') x.
Proof.
  destruct (is_both req) eqn:Hb.
  - exact (both_gate_order_paths h ip req w Hb Hlog).
  - exact (single_gate_order_paths h ip req w Hb Hlog).
Qed.

Lemma gate_order_witness :
  w_log sample_world = [] /\
  (let '(w', x) := RequestTokens sample_handler "10.0.0.1" sample_req_both sample_world in
   if is_both sample_req_both then both_order (both_tokens sample_handler sample_req_both) (w_log w') x
   else single_order (ToUpper (req_Token sample_req_both)) (w_log w') x).
Proof. split; [reflexivity | apply gate_order; reflexivity]. Defined.

(** C8 fails as stated for BOTH requests: the sample request transfers STRK
    before the ETH balance guard runs; that guard then fails, yet the request
    is not rejected but answered with a 200 partial success. *)
Lemma both_gate_interleaving :
  let '(w', x) := RequestTokens sample_handler "10.0.0.1" sample_req_both sample_world in
  w_log w' =
    [CGetChain; CValidateAddress; CCheckIPDailyLimit;
     CCheckTokenHourlyThrottle "STRK"; CCheckTokenHourlyThrottle "ETH";
     CGetChallenge; CVerifyPoW; CDeleteChallenge;
     CTrackGlobalDistribution "STRK"; CGetBalance "STRK"; CBalanceGuard "STRK";
     CTransferTokens "STRK";
     CTrackGlobalDistribution "ETH"; CGetBalance "ETH"; CBalanceGuard "ETH";
     CIncrementIPDailyLimit 2; CSetTokenHourlyThrottle "STRK"] /\
  balance_guard_denies 100 93 7 = true /\
  is_success x = true.
Proof. vm_compute. repeat split. Qed.

(** ** The CLI's address, token and network validation, the handler
    constructors, [GetQuota] and [GetInfo] *)

Lemma strip_0x_Some (a h : string) : strip_0x a = Some h -> a = ("0x" +:+ h)%string.
Proof.
  destruct a as [|c0 [|c1 a']]; simpl; try discriminate.
  - destruct c0 as [[] [] [] [] [] [] [] []]; discriminate.
  - destruct c0 as [[] [] [] [] [] [] [] []]; try discriminate;
      destruct c1 as [[] [] [] [] [] [] [] []]; try discriminate; by intros [= <-].
Qed.

Lemma first_non_hex_None (i : nat) (s : string) :
  first_non_hex i s = None <-> all_hex s = true.
Proof.
  revert i. induction s as [|c s IH]; intros i; simpl; [done|].
  destruct (is_hex_char c); simpl; [apply IH | split; discriminate].
Qed.

Lemma hex_lower_fixed (c : ascii) :
  is_hex_char c = true ->
  ((65 <=? nat_of_ascii c)%nat && (nat_of_ascii c <=? 70)%nat) = false ->
  ascii_lower c = c.
Proof. destruct c as [[] [] [] [] [] [] [] []]; vm_compute; congruence. Qed.

Lemma lower_fixed_not_upper (c : ascii) :
  ascii_lower c = c -> ((65 <=? nat_of_ascii c)%nat && (nat_of_ascii c <=? 70)%nat) = false.
Proof. destruct c as [[] [] [] [] [] [] [] []]; vm_compute; congruence. Qed.

Lemma hex_upper_fixed (c : ascii) :
  is_hex_char c = true ->
  ((97 <=? nat_of_ascii c)%nat && (nat_of_ascii c <=? 102)%nat) = false ->
  ascii_upper c = c.
Proof. destruct c as [[] [] [] [] [] [] [] []]; vm_compute; congruence. Qed.

Lemma upper_fixed_not_lower (c : ascii) :
  ascii_upper c = c -> ((97 <=? nat_of_ascii c)%nat && (nat_of_ascii c <=? 102)%nat) = false.
Proof. destruct c as [[] [] [] [] [] [] [] []]; vm_compute; congruence. Qed.

Lemma hasMixedCase_loop_cons (u l : bool) (c : ascii) (s : string) :
  hasMixedCase_loop u l (String c s) =
  hasMixedCase_loop
    (if (65 <=? nat_of_ascii c)%nat && (nat_of_ascii c <=? 70)%nat then true else u)
    (if (97 <=? nat_of_ascii c)%nat && (nat_of_ascii c <=? 102)%nat then true else l) s.
Proof. reflexivity. Qed.

Lemma mixed_loop_upper (s : string) (u l : bool) :
  all_hex s = true -> fst (hasMixedCase_loop u l s) = false -> ToLower s = s /\ u = false.
Proof.
  revert u l. induction s as [|c s IH]; intros u l Hh Hf; [done|].
  rewrite hasMixedCase_loop_cons in Hf. cbn [all_hex ToLower] in *.
  apply andb_true_iff in Hh as [Hc Hh].
  destruct (IH _ _ Hh Hf) as [-> Hu].
  destruct ((65 <=? nat_of_ascii c)%nat && (nat_of_ascii c <=? 70)%nat) eqn:E;
    [discriminate|].
  by rewrite hex_lower_fixed.
Qed.

Lemma mixed_loop_upper_none (s : string) (u l : bool) :
  ToLower s = s -> fst (hasMixedCase_loop u l s) = u.
Proof.
  revert u l. induction s as [|c s IH]; intros u l Hs; [done|].
  rewrite hasMixedCase_loop_cons. cbn [ToLower] in Hs.
  injection Hs as Hc Hs. rewrite lower_fixed_not_upper by done. by apply IH.
Qed.

Lemma mixed_loop_lower (s : string) (u l : bool) :
  all_hex s = true -> snd (hasMixedCase_loop u l s) = false -> ToUpper s = s /\ l = false.
Proof.
  revert u l. induction s as [|c s IH]; intros u l Hh Hf; [done|].
  rewrite hasMixedCase_loop_cons in Hf. cbn [all_hex ToUpper] in *.
  apply andb_true_iff in Hh as [Hc Hh].
  destruct (IH _ _ Hh Hf) as [-> Hl].
  destruct ((97 <=? nat_of_ascii c)%nat && (nat_of_ascii c <=? 102)%nat) eqn:E;
    [discriminate|].
  by rewrite hex_upper_fixed.
Qed.

Lemma mixed_loop_lower_none (s : string) (u l : bool) :
  ToUpper s = s -> snd (hasMixedCase_loop u l s) = l.
Proof.
  revert u l. induction s as [|c s IH]; intros u l Hs; [done|].
  rewrite hasMixedCase_loop_cons. cbn [ToUpper] in Hs.
  injection Hs as Hc Hs. rewrite upper_fixed_not_lower by done. by apply IH.
Qed.

Lemma hasMixedCase_false (s : string) :
  all_hex s = true -> hasMixedCase s = false <-> ToLower s = s \/ ToUpper s = s.
Proof.
  intros Hh. unfold hasMixedCase.
  pose proof (mixed_loop_upper s false false Hh) as Hu.
  pose proof (mixed_loop_lower s false false Hh) as Hl.
  pose proof (mixed_loop_upper_none s false false) as Hu'.
  pose proof (mixed_loop_lower_none s false false) as Hl'.
  destruct (hasMixedCase_loop false false s) as [u l]; simpl in *.
  split.
  - intros H. apply andb_false_iff in H as [H|H]; [left; apply Hu | right; apply Hl]; done.
  - intros [H|H]; [rewrite Hu' | rewrite Hl']; auto using andb_false_r.
Qed.

Lemma ascii_lower_hex (c : ascii) : is_hex_char c = true -> is_hex_char (ascii_lower c) = true.
Proof. destruct c as [[] [] [] [] [] [] [] []]; vm_compute; congruence. Qed.

Lemma ascii_upper_hex (c : ascii) : is_hex_char c = true -> is_hex_char (ascii_upper c) = true.
Proof. destruct c as [[] [] [] [] [] [] [] []]; vm_compute; congruence. Qed.

Lemma all_hex_ToLower (s : string) : all_hex s = true -> all_hex (ToLower s) = true.
Proof.
  induction s as [|c s IH]; simpl; [done|].
  intros [Hc Hs]%andb_true_iff. by rewrite ascii_lower_hex, IH.
Qed.

Lemma apply_checksum_hex (k : nat) (addr hh r : string) :
  all_hex addr = true -> apply_checksum k addr hh = Some r ->
  all_hex r = true /\ String.length r = String.length addr.
Proof.
  revert k r. induction addr as [|c addr IH]; intros k r Hh Ha; simpl in *.
  - by injection Ha as <-.
  - apply andb_true_iff in Hh as [Hc Hh].
    destruct (apply_checksum (S k) addr hh) as [r'|] eqn:E; [|discriminate].
    destruct (IH _ _ Hh E) as [IH1 IH2].
    destruct (is_dec_digit c).
    + injection Ha as <-. simpl. by rewrite Hc, IH1, IH2.
    + destruct (String.get k hh) as [n|]; [|discriminate].
      injection Ha as <-. simpl. rewrite IH1, IH2.
      destruct (ascii_geb n "8"); [by rewrite ascii_upper_hex | by rewrite Hc].
Qed.

Lemma ToLower_0x (h : string) : ToLower ("0x" +:+ h) = ("0x" +:+ ToLower h)%string.
Proof. reflexivity. Qed.

Lemma String_eqb_eq (a b : string) : String.eqb a b = true <-> a = b.
Proof. apply String.eqb_eq. Qed.

(** validateAddress on a 0x-prefixed, all-hex address. *)
Lemma validateAddress_hex (k : string -> string) (h network : string) :
  all_hex h = true ->
  validateAddress k ("0x" +:+ h) network =
    if String.eqb network "starknet" then validateStarknetAddress ("0x" +:+ h) h
    else if String.eqb network "ethereum" then validateEthereumAddress k ("0x" +:+ h) h
    else GoError (ErrUnsupportedNetwork network).
Proof.
  intros Hh. unfold validateAddress. change (strip_0x ("0x" +:+ h)) with (Some h). cbv iota beta.
  apply (first_non_hex_None 0) in Hh. rewrite Hh. reflexivity.
Qed.

Lemma validateAddress_ok_inv (k : string -> string) (a network : string) :
  validateAddress k a network = GoOk tt ->
  exists h, a = ("0x" +:+ h)%string /\ all_hex h = true /\
    ((network = "starknet" /\ validateStarknetAddress a h = GoOk tt) \/
     (network = "ethereum" /\ validateEthereumAddress k a h = GoOk tt)).
Proof.
  unfold validateAddress.
  destruct (strip_0x a) as [h|] eqn:Hs; [|discriminate].
  destruct (first_non_hex 0 h) as [[c i]|] eqn:Hf; [discriminate|].
  apply first_non_hex_None in Hf. apply strip_0x_Some in Hs.
  intros H. exists h. split; [done|]. split; [done|].
  destruct (String.eqb network "starknet") eqn:E1.
  - apply String.eqb_eq in E1. left. done.
  - destruct (String.eqb network "ethereum") eqn:E2; [|discriminate].
    apply String.eqb_eq in E2. right. done.
Qed.

Lemma append_0x_inj (h h' : string) : ("0x" +:+ h)%string = ("0x" +:+ h')%string -> h = h'.
Proof. intros H. injection H as H. exact H. Qed.

Lemma strip_0x_None (a h : string) : strip_0x a = None -> a <> ("0x" +:+ h)%string.
Proof. intros Hs ->. discriminate. Qed.

(** [detectAddressNetwork] classifies by the hex part after [0x]: exactly 40
    hex characters is ["ethereum"], any other hex part of at most 64 characters
    (the empty one included) is ["starknet"], and every other input (no [0x],
    a non-hex character, more than 64 characters) gives [""]. *)
Theorem detectAddressNetwork_classes (address : string) :
  (detectAddressNetwork address = "ethereum" <->
     exists h, address = ("0x" +:+ h)%string /\ all_hex h = true /\ String.length h = 40%nat) /\
  (detectAddressNetwork address = "starknet" <->
     exists h, address = ("0x" +:+ h)%string /\ all_hex h = true /\
               (String.length h <= 64)%nat /\ String.length h <> 40%nat) /\
  (detectAddressNetwork address = "" <->
     ~ exists h, address = ("0x" +:+ h)%string /\ all_hex h = true /\
                 (String.length h <= 64)%nat).
Proof.
  unfold detectAddressNetwork.
  destruct (strip_0x address) as [h|] eqn:Hs.
  - apply strip_0x_Some in Hs as ->.
    destruct (all_hex h) eqn:Hh; simpl.
    + destruct (Nat.eqb_spec (String.length h) 40) as [E|E];
        [|destruct (Nat.ltb_spec 40 (String.length h)); destruct (Nat.leb_spec (String.length h) 64);
          simpl; try destruct (Nat.ltb_spec (String.length h) 40)];
        (split; [|split]); split;
        try (intros; discriminate);
        try (intros (h' & Heq%append_0x_inj & ?); subst h'; intuition lia);
        try (intros (h' & Heq%append_0x_inj & ?); subst h'; exfalso; intuition lia);
        try (intros _; eexists; split; [reflexivity|]; intuition lia);
        try (intros Hn; exfalso; apply Hn; eexists; split; [reflexivity|]; intuition lia);
        try (intros _ (h' & Heq%append_0x_inj & ?); subst h'; intuition lia);
        try reflexivity.
    + (split; [|split]); split;
        try (intros; discriminate);
        try (intros (h' & Heq%append_0x_inj & ?); subst h'; intuition congruence);
        try (intros _ (h' & Heq%append_0x_inj & ?); subst h'; intuition congruence);
        try reflexivity.
  - (split; [|split]); split;
      try (intros; discriminate);
      try (intros (h' & Heq & ?); exfalso; exact (strip_0x_None _ _ Hs Heq));
      try (intros _ (h' & Heq & ?); exact (strip_0x_None _ _ Hs Heq));
      try reflexivity.
Qed.

Lemma validateStarknetAddress_ok (address h : string) :
  validateStarknetAddress address h = GoOk tt <->
  (0 < String.length h <= 64)%nat /\ String.length h <> 40%nat.
Proof.
  unfold validateStarknetAddress.
  destruct (Nat.eqb_spec (String.length h) 0);
    [|destruct (Nat.ltb_spec 64 (String.length h));
      [|destruct (Nat.eqb_spec (String.length h) 40)]];
    split; intros; try discriminate; try lia; auto.
Qed.

(** [validateAddress] accepts an address for ["starknet"] exactly when it is
    [0x] followed by 1 to 64 hex characters, but not exactly 40 (those are
    rejected as looking like Ethereum addresses). *)
Theorem validateAddress_starknet_iff (k : string -> string) (address : string) :
  validateAddress k address "starknet" = GoOk tt <->
  exists h, address = ("0x" +:+ h)%string /\ all_hex h = true /\
            (0 < String.length h <= 64)%nat /\ String.length h <> 40%nat.
Proof.
  split.
  - intros H. destruct (validateAddress_ok_inv k address "starknet" H)
      as (h & -> & Hh & [[_ Hv] | [Hn _]]); [|discriminate].
    apply validateStarknetAddress_ok in Hv. eauto.
  - intros (h & -> & Hh & Hl). rewrite validateAddress_hex by done.
    simpl. by apply validateStarknetAddress_ok.
Qed.

Lemma validateAddress_ok_detect (k : string -> string) (address network : string)
    (Hok : validateAddress k address network = GoOk tt) :
  (network = "starknet" \/ network = "ethereum") /\ detectAddressNetwork address = network.
Proof.
  destruct (validateAddress_ok_inv k address network Hok)
    as (h & -> & Hh & [[-> Hv] | [-> Hv]]); split; auto;
    unfold detectAddressNetwork; change (strip_0x ("0x" +:+ h)) with (Some h);
    cbv iota beta; rewrite Hh; simpl.
  - apply validateStarknetAddress_ok in Hv.
    destruct (Nat.eqb_spec (String.length h) 40); [lia|].
    destruct (Nat.ltb_spec 40 (String.length h)); destruct (Nat.leb_spec (String.length h) 64);
      simpl; try reflexivity; try lia.
    destruct (Nat.ltb_spec (String.length h) 40); [reflexivity | lia].
  - unfold validateEthereumAddress in Hv.
    destruct (Nat.eqb_spec (String.length h) 40); [reflexivity|].
    simpl in Hv. destruct (_ && _); discriminate.
Qed.

(** Whenever [validateAddress] accepts an address for a network, that network
    is ["starknet"] or ["ethereum"] and [detectAddressNetwork] detects the same
    network for the address. *)
Theorem validateAddress_agrees_with_detect (k : string -> string) (address network : string)
    (Hok : validateAddress k address network = GoOk tt) :
  (network = "starknet" \/ network = "ethereum") /\ detectAddressNetwork address = network.
Proof. exact (validateAddress_ok_detect k address network Hok). Qed.

Lemma isValidEIP55Checksum_true (k : string -> string) (a : string) :
  isValidEIP55Checksum k a = Some true <-> toEIP55Checksum k a = Some a.
Proof.
  unfold isValidEIP55Checksum. destruct (toEIP55Checksum k a) as [r|]; [|split; discriminate].
  split; intros H.
  - injection H as H. apply String.eqb_eq in H. congruence.
  - injection H as ->. by rewrite String.eqb_refl.
Qed.

(** For [0x] followed by 40 hex characters, [validateAddress] accepts the
    address for ["ethereum"] exactly when its hex part is all lower case, all
    upper case, or the address equals its own EIP-55 checksum form. *)
Theorem validateAddress_ethereum_iff (k : string -> string) (h : string)
    (Hh : all_hex h = true) (Hlen : String.length h = 40%nat) :
  validateAddress k ("0x" +:+ h) "ethereum" = GoOk tt <->
  ToLower h = h \/ ToUpper h = h \/ toEIP55Checksum k ("0x" +:+ h) = Some ("0x" +:+ h)%string.
Proof.
  rewrite validateAddress_hex by done. simpl.
  unfold validateEthereumAddress. rewrite Hlen. simpl.
  pose proof (hasMixedCase_false h Hh) as Hm.
  destruct (hasMixedCase h) eqn:E.
  - assert (Hn : ~ (ToLower h = h \/ ToUpper h = h)) by (rewrite <- Hm; discriminate).
    rewrite <- isValidEIP55Checksum_true.
    destruct (isValidEIP55Checksum k ("0x" +:+ h)) as [[]|] eqn:Hv.
    + split; auto.
    + destruct (toEIP55Checksum k ("0x" +:+ h)); split; intros H; try discriminate;
        intuition discriminate.
    + split; intros H; try discriminate; intuition discriminate.
  - split; intros _; [|reflexivity]. destruct (proj1 Hm eq_refl); auto.
Qed.

(** With a hash function returning 64 characters (as Keccak-256 in hex does),
    [validateAddress] never reaches the out-of-range indexing of
    [isValidEIP55Checksum] / [toEIP55Checksum]: it returns a result or an
    error, never a runtime panic. *)
Theorem validateAddress_no_panic (k : string -> string)
    (Hk : forall s, String.length (k s) = 64%nat) (address network : string) :
  validateAddress k address network <> GoPanic.
Proof.
  unfold validateAddress.
  destruct (strip_0x address) as [h|] eqn:Hs; [|discriminate].
  apply strip_0x_Some in Hs.
  destruct (first_non_hex 0 h) as [[c i]|]; [discriminate|].
  destruct (String.eqb network "starknet").
  { unfold validateStarknetAddress. repeat case_match; discriminate. }
  destruct (String.eqb network "ethereum"); [|discriminate].
  unfold validateEthereumAddress.
  destruct (Nat.eqb_spec (String.length h) 40) as [Hl|Hl]; simpl;
    [|destruct (_ && _); discriminate].
  destruct (apply_checksum_some 0 (ToLower h) (k (ToLower h))) as [r Hr].
  { rewrite ToLower_length, Hk. lia. }
  assert (Ht : toEIP55Checksum k address = Some ("0x" +:+ r)%string).
  { subst address. rewrite toEIP55Checksum_prefixed. simpl. by rewrite Hr. }
  unfold isValidEIP55Checksum. rewrite Ht.
  destruct (hasMixedCase h); [|discriminate].
  destruct (String.eqb _ _); discriminate.
Qed.

Lemma validateEthereumAddress_40 (k : string -> string) (address h : string) :
  String.length h = 40%nat ->
  validateEthereumAddress k address h =
  if hasMixedCase h then
    match isValidEIP55Checksum k address with
    | None => GoPanic
    | Some true => GoOk tt
    | Some false =>
        match toEIP55Checksum k address with
        | None => GoPanic
        | Some c => GoError (ErrChecksum address c (ToLower address))
        end
    end
  else GoOk tt.
Proof. intros Hl. unfold validateEthereumAddress. rewrite Hl. reflexivity. Qed.

Lemma validateAddress_ethereum_hex (k : string -> string) (address h : string) :
  strip_0x address = Some h -> all_hex h = true ->
  validateAddress k address "ethereum" = validateEthereumAddress k address h.
Proof.
  intros Hs Hh. unfold validateAddress. rewrite Hs.
  apply (first_non_hex_None 0) in Hh. rewrite Hh. reflexivity.
Qed.

(** When [validateAddress] rejects an Ethereum address for a bad checksum, both
    addresses its error message suggests, the checksummed one and the
    lower-case one, are accepted by [validateAddress] for ["ethereum"]. *)
Theorem checksum_error_suggestions_valid (k : string -> string) (address expected lower : string)
    (Herr : validateAddress k address "ethereum" = GoError (ErrChecksum address expected lower)) :
  validateAddress k expected "ethereum" = GoOk tt /\
  validateAddress k lower "ethereum" = GoOk tt.
Proof.
  destruct (strip_0x address) as [h|] eqn:Hs;
    [|unfold validateAddress in Herr; rewrite Hs in Herr; discriminate].
  destruct (all_hex h) eqn:Hf;
    [|unfold validateAddress in Herr; rewrite Hs in Herr;
      destruct (first_non_hex 0 h) as [[c i]|] eqn:E;
      [discriminate | apply first_non_hex_None in E; congruence]].
  rewrite (validateAddress_ethereum_hex k address h Hs Hf) in Herr.
  destruct (Nat.eqb_spec (String.length h) 40) as [Hl|Hl];
    [|unfold validateEthereumAddress in Herr;
      destruct (Nat.eqb_spec (String.length h) 40); [lia|];
      destruct (_ && _); discriminate].
  rewrite validateEthereumAddress_40 in Herr by done.
  destruct (hasMixedCase h); [|discriminate].
  unfold isValidEIP55Checksum in Herr.
  destruct (toEIP55Checksum k address) as [e|] eqn:Ht; [|discriminate].
  destruct (String.eqb address e); [discriminate|].
  injection Herr as <- <-.
  apply strip_0x_Some in Hs. subst address.
  rewrite toEIP55Checksum_prefixed in Ht. cbv zeta in Ht.
  destruct (apply_checksum 0 (ToLower h) (k (ToLower h))) as [r|] eqn:Hr; [|discriminate].
  injection Ht as <-.
  destruct (apply_checksum_hex 0 (ToLower h) _ r (all_hex_ToLower h Hf) Hr) as [Hrh Hrl].
  rewrite ToLower_length in Hrl.
  split.
  - rewrite (validateAddress_ethereum_hex k ("0x" +:+ r) r eq_refl Hrh).
    rewrite validateEthereumAddress_40 by lia.
    destruct (hasMixedCase r); [|reflexivity].
    unfold isValidEIP55Checksum. rewrite toEIP55Checksum_prefixed. cbv zeta.
    rewrite (apply_checksum_lower 0 (ToLower h) _ r (ToLower_idem h) Hr), Hr.
    by rewrite String.eqb_refl.
  - rewrite ToLower_0x.
    rewrite (validateAddress_ethereum_hex k ("0x" +:+ ToLower h) (ToLower h) eq_refl (all_hex_ToLower h Hf)).
    rewrite validateEthereumAddress_40 by (rewrite ToLower_length; lia).
    replace (hasMixedCase (ToLower h)) with false; [reflexivity|].
    symmetry. apply hasMixedCase_false; [by apply all_hex_ToLower|].
    left. apply ToLower_idem.
Qed.

Lemma networkAliases_None (s : string) :
  s ∉ ["sn"; "stark"; "sn-sep"; "eth"; "eth-sep"] -> networkAliases !! s = None.
Proof. intros H. by apply not_elem_of_list_to_map_1. Qed.

Lemma resolveNetwork_cases (n : string) :
  (In (ToLower n) ["sn"; "stark"; "sn-sep"] /\ resolveNetwork n = "starknet") \/
  (In (ToLower n) ["eth"; "eth-sep"] /\ resolveNetwork n = "ethereum") \/
  (~ In (ToLower n) ["sn"; "stark"; "sn-sep"; "eth"; "eth-sep"] /\ resolveNetwork n = ToLower n).
Proof.
  unfold resolveNetwork.
  destruct (decide (ToLower n ∈ ["sn"; "stark"; "sn-sep"; "eth"; "eth-sep"])) as [H|H].
  - rewrite list_elem_of_In in H. simpl in H.
    destruct H as [<-|[<-|[<-|[<-|[<-|[]]]]]]; vm_compute; auto 10.
  - rewrite networkAliases_None by done. right; right. split; [|done].
    by rewrite <- list_elem_of_In.
Qed.

(** On ASCII input, [ValidateNetwork] accepts a network exactly when its
    lower-case form is ["starknet"], ["ethereum"] or one of the aliases
    ["sn"], ["stark"], ["sn-sep"], ["eth"], ["eth-sep"]; an accepted network is
    returned resolved to ["starknet"] or ["ethereum"], which [GetNetwork] leaves
    unchanged. *)
Theorem ValidateNetwork_accepted (network : string) (Hascii : ascii_only network = true) :
  (snd (ValidateNetwork network) = None <->
   In (ToLower network) ["starknet"; "ethereum"; "sn"; "stark"; "sn-sep"; "eth"; "eth-sep"]) /\
  (snd (ValidateNetwork network) = None ->
   (fst (ValidateNetwork network) = "starknet" \/ fst (ValidateNetwork network) = "ethereum") /\
   GetNetwork (fst (ValidateNetwork network)) = fst (ValidateNetwork network)).
Proof.
  unfold ValidateNetwork.
  destruct (String.eqb_spec network "") as [->|Hne].
  { simpl. split; [split; [discriminate | intuition discriminate] | discriminate]. }
  destruct (resolveNetwork_cases network) as [[Hin ->]|[[Hin ->]|[Hin ->]]].
  - simpl. split; [split; [intros _; simpl in *; tauto | done] | intros _; split; [auto | reflexivity]].
  - simpl. split; [split; [intros _; simpl in *; tauto | done] | intros _; split; [auto | reflexivity]].
  - simpl existsb.
    destruct (String.eqb_spec (ToLower network) "starknet") as [E|E];
      [rewrite E; simpl; split; [split; [intros _; auto | done] | intros _; split; [auto | reflexivity]]|].
    destruct (String.eqb_spec (ToLower network) "ethereum") as [E'|E'];
      [rewrite E'; simpl; split; [split; [intros _; auto | done] | intros _; split; [auto | reflexivity]]|].
    simpl. split; [split; [discriminate|] | discriminate].
    intros H. exfalso. simpl in H, Hin. intuition.
Qed.

(** When the validation prefix of [runRequest] succeeds (ASCII network and
    token), the selected network is ["starknet"] or ["ethereum"], the address is
    valid for it and detected as it, and the plan is either both tokens on
    Starknet, STRK or ETH on Starknet, or ETH on Ethereum. *)
Theorem runRequest_validation_sound (k : string -> string) (network address token : string)
    (both : bool) (sel : string) (plan : RequestPlan)
    (Hnet : ascii_only network = true) (Htok : ascii_only token = true)
    (Hok : runRequest_validation k network address token both = GoOk (sel, plan)) :
  (sel = "starknet" \/ sel = "ethereum") /\
  validateAddress k address sel = GoOk tt /\
  detectAddressNetwork address = sel /\
  match plan with
  | PlanBoth => sel = "starknet"
  | PlanSingle t => (sel = "starknet" /\ (t = "STRK" \/ t = "ETH")) \/ (sel = "ethereum" /\ t = "ETH")
  end.
Proof.
  unfold runRequest_validation in Hok.
  destruct (ValidateNetwork network) as [n' [e|]]; [discriminate|].
  destruct (negb _ && negb _); [discriminate|].
  destruct (validateAddress k address (GetNetwork n')) as [[]| |] eqn:Hv; try discriminate.
  destruct (validateAddress_ok_detect k address _ Hv) as [Hsel Hdet].
  set (t := ToUpper _) in Hok.
  set (b := if String.eqb t "BOTH" then true else both) in Hok.
  destruct b eqn:Hb; simpl in Hok.
  - destruct (String.eqb_spec (GetNetwork n') "starknet") as [E|E]; simpl in Hok; [|discriminate].
    injection Hok as <- <-. auto.
  - unfold validateToken in Hok.
    destruct (String.eqb_spec (GetNetwork n') "starknet") as [E|E].
    + destruct (String.eqb_spec t "ETH"); destruct (String.eqb_spec t "STRK");
        simpl in Hok; try discriminate; injection Hok as <- <-; auto 10.
    + destruct (String.eqb_spec (GetNetwork n') "ethereum") as [E'|E']; [|discriminate].
      destruct (String.eqb_spec t "ETH"); simpl in Hok; [|discriminate].
      injection Hok as <- <-. auto 10.
Qed.

(** In [runRequest], the [--both] flag and the token argument ["both"] (any
    case) have the same effect: the validation prefix then behaves as with no
    token and [--both] set, whatever token was given. *)
Theorem runRequest_both_mode (k : string -> string) (network address token : string) (both : bool)
    (Hb : both = true \/ ToUpper token = "BOTH") :
  runRequest_validation k network address token both =
  runRequest_validation k network address "" true.
Proof.
  unfold runRequest_validation.
  destruct (ValidateNetwork network) as [n' [e|]]; [reflexivity|].
  destruct (negb _ && negb _); [reflexivity|].
  destruct (validateAddress k address (GetNetwork n')) as [[]| |]; try reflexivity.
  destruct Hb as [->|Hu].
  - repeat match goal with
           | |- context [if ?c then true else true] =>
               replace (if c then true else true) with true by (destruct c; reflexivity)
           end.
    reflexivity.
  - assert (Hne : String.eqb token "" = false).
    { destruct (String.eqb_spec token ""); [subst; discriminate | reflexivity]. }
    rewrite Hne. cbv iota. rewrite Hu, String.eqb_refl.
    repeat match goal with
           | |- context [if ?c then true else true] =>
               replace (if c then true else true) with true by (destruct c; reflexivity)
           end.
    reflexivity.
Qed.

(** A single-chain handler built by [NewHandler] serves its chain for the
    empty network and for the chain's own name, and answers every other network
    with the unsupported-network message. *)
Theorem NewHandler_getChain (maxRequestsPerDayIP powDifficulty : Z)
    (verifyPoW : string -> Z -> Z -> bool) (parseFloat : string -> float)
    (chainName : string) (chain : Chain) (chainProvider : ChainProvider)
    (network : string) (w : World) :
  getChain (NewHandler maxRequestsPerDayIP powDifficulty verifyPoW parseFloat
              chainName chain chainProvider) network w =
  (log_call CGetChain w,
   Continue (if String.eqb network "" || String.eqb network chainName
             then inr (chain, chainProvider)
             else inl (MsgUnsupportedNetwork network))).
Proof.
  simpl. unfold network_or_default. simpl.
  destruct (String.eqb_spec network "") as [->|Hne]; simpl.
  - by rewrite !lookup_singleton_eq.
  - destruct (String.eqb_spec network chainName) as [->|Hn].
    + by rewrite !lookup_singleton_eq.
    + rewrite lookup_singleton_ne; [reflexivity | congruence].
Qed.

(** [NewMultiChainHandler] picks ["starknet"] as the default network when it is
    registered, else ["ethereum"] when that is registered; for a non-empty
    registry whose chains all have providers, the default is a registered
    chain, so that [getChain] with an empty network returns it. *)
Theorem NewMultiChainHandler_default (maxRequestsPerDayIP powDifficulty : Z)
    (verifyPoW : string -> Z -> Z -> bool) (parseFloat : string -> float)
    (chainRegistry : gmap string Chain) (providerRegistry : gmap string ChainProvider)
    (iter : list string)
    (Hiter : forall name, In name iter <-> is_Some (chainRegistry !! name))
    (Hprov : forall name, is_Some (chainRegistry !! name) -> is_Some (providerRegistry !! name))
    (Hne : chainRegistry <> ∅) (w : World) :
  let h := NewMultiChainHandler maxRequestsPerDayIP powDifficulty verifyPoW parseFloat
             chainRegistry providerRegistry iter in
  (is_Some (chainRegistry !! "starknet") -> h_defaultNetwork h = "starknet") /\
  (chainRegistry !! "starknet" = None -> is_Some (chainRegistry !! "ethereum") ->
   h_defaultNetwork h = "ethereum") /\
  exists chain chainProvider,
    chainRegistry !! h_defaultNetwork h = Some chain /\
    getChain h "" w = (log_call CGetChain w, Continue (inr (chain, chainProvider))).
Proof.
  intros h.
  assert (Hdef : is_Some (chainRegistry !! h_defaultNetwork h)).
  { subst h. simpl.
    destruct (chainRegistry !! "starknet") eqn:Es; [by rewrite Es|].
    destruct (chainRegistry !! "ethereum") eqn:Ee; [by rewrite Ee|].
    destruct (map_choose chainRegistry Hne) as (k & v & Hk).
    destruct iter as [|name rest].
    - exfalso. apply (proj2 (Hiter k)). by rewrite Hk.
    - apply Hiter. left. reflexivity. }
  split; [|split].
  - intros [c Hc]. subst h. simpl. by rewrite Hc.
  - intros Hs [c Hc]. subst h. simpl. by rewrite Hs, Hc.
  - destruct Hdef as [chain Hc].
    destruct (Hprov _ (ex_intro _ chain Hc)) as [p Hp].
    exists chain, p. split; [done|].
    assert (Hc' : h_chains h = chainRegistry) by reflexivity.
    assert (Hp' : h_providers h = providerRegistry) by reflexivity.
    clearbody h. simpl. unfold network_or_default. simpl.
    by rewrite Hc', Hp', Hc, Hp.
Qed.

Lemma check_throttle_result (ip n t : string) (w : World) :
  CheckTokenHourlyThrottle ip n t w =
  (mkWorld (w_store w) (w_down w) (w_now w) (w_log w ++ [CCheckTokenHourlyThrottle t]),
   Continue (if w_down w OpCheckTokenHourlyThrottle then Err ErrUnavailable
             else match token_throttle (w_store w) !! (ip, n, t) with
                  | Some e => if w_now w <? e then Ok (false, Some e) else Ok (true, None)
                  | None => Ok (true, None)
                  end)).
Proof.
  simpl. destruct (w_down w _); [reflexivity|].
  destruct (token_throttle (w_store w) !! (ip, n, t)) as [e|]; [|reflexivity].
  destruct (w_now w <? e); reflexivity.
Qed.

Lemma quota_token_loop_spec (ip n : string) (tokens : list string)
    (m : gmap string (bool * option Z)) (w : World) :
  exists w' m',
    quota_token_loop ip n tokens m w = (w', Continue m') /\
    w_store w' = w_store w /\ w_down w' = w_down w /\ w_now w' = w_now w /\
    (forall key, (forall t, In t tokens -> ToLower t <> key) -> m' !! key = m !! key) /\
    (NoDup (map ToLower tokens) -> forall t, In t tokens ->
       m' !! ToLower t =
       match snd (CheckTokenHourlyThrottle ip n t w) with
       | Continue (Ok p) => Some p
       | _ => m !! ToLower t
       end).
Proof.
  revert m w. induction tokens as [|t0 rest IH]; intros m w.
  - exists w, m. simpl. repeat split; auto. intros _ t [].
  - cbn [quota_token_loop]. unfold bind at 1. rewrite check_throttle_result.
    set (w1 := mkWorld _ _ _ _).
    set (r := if w_down w OpCheckTokenHourlyThrottle then _ else _).
    set (m1 := match r with
               | Ok (available, nextTime) => <[ToLower t0 := (available, nextTime)]> m
               | Err _ => m
               end).
    destruct (IH m1 w1) as (w' & m' & Hrun & Hs & Hd & Hn & Hkeep & Hval).
    assert (Hloop : (match r with
                     | Err _ => quota_token_loop ip n rest m
                     | Ok (available, nextTime) =>
                         quota_token_loop ip n rest (<[ToLower t0 := (available, nextTime)]> m)
                     end) w1 = (w', Continue m')).
    { rewrite <- Hrun. subst m1. by destruct r as [[? ?]|]. }
    assert (Hm1 : forall key, key <> ToLower t0 -> m1 !! key = m !! key).
    { intros key Hk. subst m1. destruct r as [[? ?]|]; [|reflexivity].
      apply lookup_insert_ne. congruence. }
    exists w', m'. rewrite Hloop. split; [done|]. subst w1. simpl in Hs, Hd, Hn.
    split; [done|]. split; [done|]. split; [done|]. split.
    + intros key Hk. rewrite Hkeep by (intros t Ht; apply Hk; right; exact Ht).
      apply Hm1. intros ->. apply (Hk t0); [left|]; reflexivity.
    + intros Hnd t [<-|Ht]; simpl in Hnd; apply NoDup_cons in Hnd as [Hnin Hnd].
      * rewrite Hkeep.
        -- subst m1. subst r. rewrite check_throttle_result. simpl.
           destruct (w_down w _); [reflexivity|].
           destruct (token_throttle (w_store w) !! _) as [e|];
             [destruct (w_now w <? e)|]; apply lookup_insert_eq.
        -- intros t' Ht' Heq. apply Hnin. rewrite <- Heq. apply list_elem_of_In, in_map, Ht'.
      * assert (Hne : ToLower t <> ToLower t0).
        { intros Heq. apply Hnin. rewrite <- Heq. apply list_elem_of_In, in_map, Ht. }
        rewrite (Hval Hnd t Ht), (Hm1 _ Hne), !check_throttle_result. reflexivity.
Qed.

Lemma check_throttle_frame (ip n t : string) (w w' : World) :
  w_store w' = w_store w -> w_down w' = w_down w -> w_now w' = w_now w ->
  snd (CheckTokenHourlyThrottle ip n t w') = snd (CheckTokenHourlyThrottle ip n t w).
Proof. intros Hs Hd Hn. rewrite !check_throttle_result. simpl. by rewrite Hs, Hd, Hn. Qed.

Lemma quota_network_loop_spec (ip : string) (l : list (string * Chain))
    (m : gmap string (gmap string (bool * option Z))) (w : World) :
  exists w' m',
    quota_network_loop ip l m w = (w', Continue m') /\
    w_store w' = w_store w /\ w_down w' = w_down w /\ w_now w' = w_now w /\
    (forall n, n ∉ l.*1 -> m' !! n = m !! n) /\
    (NoDup (l.*1) -> forall n chain, In (n, chain) l ->
       exists tt, m' !! n = Some tt /\
         (NoDup (map ToLower (GetSupportedTokens chain)) ->
          forall t, In t (GetSupportedTokens chain) ->
            tt !! ToLower t =
            match snd (CheckTokenHourlyThrottle ip n t w) with
            | Continue (Ok p) => Some p
            | _ => None
            end)).
Proof.
  revert m w. induction l as [|[n0 ch0] rest IH]; intros m w.
  - exists w, m. simpl. repeat split; auto. intros _ n chain [].
  - cbn [quota_network_loop]. unfold bind at 1.
    destruct (quota_token_loop_spec ip n0 (GetSupportedTokens ch0) ∅ w)
      as (w1 & tt0 & Hrun0 & Hs0 & Hd0 & Hn0 & _ & Hval0).
    rewrite Hrun0.
    destruct (IH (<[n0 := tt0]> m) w1) as (w' & m' & Hrun & Hs & Hd & Hn & Hkeep & Hval).
    exists w', m'. split; [done|].
    split; [congruence|]. split; [congruence|]. split; [congruence|]. split.
    + intros n Hn'. rewrite Hkeep.
      * apply lookup_insert_ne. intros ->. apply Hn'. left.
      * intros Hin. apply Hn'. right. exact Hin.
    + intros Hnd n chain Hin. simpl in Hnd. apply NoDup_cons in Hnd as [Hnin Hnd].
      destruct Hin as [Heq|Hin].
      * injection Heq as <- <-. exists tt0. split.
        -- rewrite Hkeep by exact Hnin. apply lookup_insert_eq.
        -- intros Hnd' t Ht. rewrite (Hval0 Hnd' t Ht).
           destruct (snd _) as [|[[? ?]|]]; try reflexivity; apply lookup_empty.
      * destruct (Hval Hnd n chain Hin) as (tt & Htt & Hv).
        exists tt. split; [done|]. intros Hnd' t Ht.
        rewrite (Hv Hnd' t Ht). by rewrite (check_throttle_frame ip n t w w1).
Qed.

(** [GetQuota] never writes the store; if the daily-quota read fails, it answers
    with status 500 after that single call. *)
Theorem GetQuota_read_only (h : Handler) (ip : string) (w : World) :
  w_store (fst (GetQuota h ip w)) = w_store w /\
  (w_down w OpGetIPDailyQuota = true ->
   GetQuota h ip w = (log_call CGetIPDailyQuota w, Continue (QuotaError StatusInternalServerError))).
Proof.
  unfold GetQuota. simpl.
  destruct (w_down w OpGetIPDailyQuota) eqn:Hd; [split; reflexivity|].
  split; [|discriminate].
  set (w1 := mkWorld _ _ _ _).
  destruct (quota_network_loop_spec ip (map_to_list (h_chains h)) ∅ w1)
    as (w' & m' & Hrun & Hs & _). unfold bind. rewrite Hrun. simpl. exact Hs.
Qed.

(** A successful [GetQuota] reports throttle data for exactly the registered
    networks; for each supported token of a chain (with distinct lower-case
    names) the entry under the lower-case token name is what
    [CheckTokenHourlyThrottle] returns, and it is absent when that check
    fails. *)
Theorem GetQuota_throttle_entries (h : Handler) (ip : string) (w w' : World) (r : QuotaResponse)
    (Hq : GetQuota h ip w = (w', Continue (QuotaOk r))) :
  (forall n, is_Some (q_hourly_throttle_by_network r !! n) <-> is_Some (h_chains h !! n)) /\
  (forall n chain t,
     h_chains h !! n = Some chain ->
     NoDup (map ToLower (GetSupportedTokens chain)) ->
     In t (GetSupportedTokens chain) ->
     match q_hourly_throttle_by_network r !! n with
     | Some tokenThrottles => tokenThrottles !! ToLower t
     | None => None
     end =
     match snd (CheckTokenHourlyThrottle ip n t w) with
     | Continue (Ok p) => Some p
     | _ => None
     end).
Proof.
  unfold GetQuota in Hq. simpl in Hq.
  destruct (w_down w OpGetIPDailyQuota) eqn:Hd; [discriminate|].
  set (w1 := mkWorld _ _ _ _) in Hq.
  destruct (quota_network_loop_spec ip (map_to_list (h_chains h)) ∅ w1)
    as (w2 & m' & Hrun & Hs & Hd2 & Hn & Hkeep & Hval).
  unfold bind in Hq. rewrite Hrun in Hq. simpl in Hq. injection Hq as _ <-. simpl.
  pose proof (NoDup_fst_map_to_list (h_chains h)) as Hnd.
  split.
  - intros n. split.
    + intros Hm. destruct (decide (n ∈ (map_to_list (h_chains h)).*1)) as [Hin|Hin].
      * apply list_elem_of_fmap in Hin as ([n' ch] & -> & Hin).
        apply elem_of_map_to_list in Hin. simpl. by rewrite Hin.
      * rewrite Hkeep in Hm by exact Hin. by apply lookup_empty_is_Some in Hm.
    + intros [ch Hch].
      apply elem_of_map_to_list, list_elem_of_In in Hch.
      destruct (Hval Hnd n ch Hch) as (tt & Htt & _). by rewrite Htt.
  - intros n chain t Hch Hnd' Ht.
    apply elem_of_map_to_list, list_elem_of_In in Hch.
    destruct (Hval Hnd n chain Hch) as (tt & -> & Hv).
    rewrite (Hv Hnd' t Ht). by rewrite (check_throttle_frame ip n t w w1).
Qed.

Lemma info_balance_loop_spec (Sprintf_f : nat -> float -> string) (chain : Chain)
    (chainProvider : ChainProvider) (tokens : list string) (m : gmap string string) (w : World) :
  exists w' m',
    info_balance_loop Sprintf_f chain chainProvider tokens m w = (w', Continue m') /\
    forall key, m' !! key =
      if existsb (String.eqb key) tokens then
        Some (match GetBalance chain (GetFaucetAddress chainProvider) key with
              | None => "0"
              | Some b => if String.eqb key "ETH" then Sprintf_f 4%nat b else Sprintf_f 2%nat b
              end)
      else m !! key.
Proof.
  revert m w. induction tokens as [|t0 rest IH]; intros m w.
  - exists w, m. split; [reflexivity|]. intros key. reflexivity.
  - cbn [info_balance_loop]. simpl.
    set (v := match GetBalance chain (GetFaucetAddress chainProvider) t0 with
              | None => "0"
              | Some b => if String.eqb t0 "ETH" then Sprintf_f 4%nat b else Sprintf_f 2%nat b
              end).
    destruct (IH (<[t0 := v]> m) (log_call (CGetBalance t0) w)) as (w' & m' & Hrun & Hm).
    exists w', m'. split.
    + rewrite <- Hrun. subst v.
      destruct (GetBalance chain (GetFaucetAddress chainProvider) t0); reflexivity.
    + intros key. rewrite Hm. cbn [existsb].
      destruct (String.eqb_spec key t0) as [->|Hne]; simpl.
      * destruct (existsb (String.eqb t0) rest); [reflexivity|]. apply lookup_insert_eq.
      * destruct (existsb (String.eqb key) rest); [reflexivity|].
        apply lookup_insert_ne. congruence.
Qed.

(** In a successful [GetInfo], the STRK balance field is the STRK balance of the
    faucet address formatted with 2 decimals when the chain supports STRK and
    the balance read succeeds, and ["0"] otherwise; the ETH field likewise with
    4 decimals. *)
Theorem GetInfo_balances (GetNetworkName : Chain -> string) (Sprintf_f : nat -> float -> string)
    (Hfmt : forall prec x, Sprintf_f prec x <> "")
    (h : Handler) (network : string) (w w' : World) (chain : Chain)
    (chainProvider : ChainProvider) (r : InfoResponse)
    (Hc : snd (getChain h network w) = Continue (inr (chain, chainProvider)))
    (Hi : GetInfo GetNetworkName Sprintf_f h network w = (w', Continue (InfoOk r))) :
  ir_BalanceSTRK r =
    (if existsb (String.eqb "STRK") (GetSupportedTokens chain) then
       match GetBalance chain (GetFaucetAddress chainProvider) "STRK" with
       | Some b => Sprintf_f 2%nat b
       | None => "0"
       end
     else "0") /\
  ir_BalanceETH r =
    (if existsb (String.eqb "ETH") (GetSupportedTokens chain) then
       match GetBalance chain (GetFaucetAddress chainProvider) "ETH" with
       | Some b => Sprintf_f 4%nat b
       | None => "0"
       end
     else "0").
Proof.
  unfold GetInfo in Hi. unfold bind at 1 in Hi.
  destruct (getChain h network w) as [w1 x] eqn:Hg. simpl in Hc. subst x.
  destruct (info_balance_loop_spec Sprintf_f chain chainProvider (GetSupportedTokens chain) ∅ w1)
    as (w2 & m' & Hrun & Hm).
  unfold bind in Hi. rewrite Hrun in Hi. simpl in Hi. injection Hi as _ <-. simpl.
  unfold balance_field. rewrite !Hm. split.
  - destruct (existsb _ _); [|reflexivity]. simpl.
    destruct (GetBalance chain (GetFaucetAddress chainProvider) "STRK") as [b|]; [|reflexivity].
    simpl. destruct (String.eqb_spec (Sprintf_f 2%nat b) ""); [exfalso; by apply (Hfmt 2%nat b)|reflexivity].
  - destruct (existsb _ _); [|reflexivity]. simpl.
    destruct (GetBalance chain (GetFaucetAddress chainProvider) "ETH") as [b|]; [|reflexivity].
    simpl. destruct (String.eqb_spec (Sprintf_f 4%nat b) ""); [exfalso; by apply (Hfmt 4%nat b)|reflexivity].
Qed.

Lemma validateAddress_agrees_with_detect_witness :
  validateAddress keccak_sample "0x0123" "starknet" = GoOk tt /\
  ((("starknet" = "starknet" \/ "starknet" = "ethereum") /\
    detectAddressNetwork "0x0123" = "starknet")).
Proof.
  split; [vm_compute; reflexivity |].
  apply (validateAddress_agrees_with_detect keccak_sample "0x0123" "starknet").
  vm_compute. reflexivity.
Defined.

Lemma validateAddress_ethereum_iff_witness :
  (validateAddress keccak_sample ("0x" +:+ "742d35cc6634c0532925a3b844bc9e7595f8d9f1") "ethereum" = GoOk tt <->
   ToLower "742d35cc6634c0532925a3b844bc9e7595f8d9f1" = "742d35cc6634c0532925a3b844bc9e7595f8d9f1" \/
   ToUpper "742d35cc6634c0532925a3b844bc9e7595f8d9f1" = "742d35cc6634c0532925a3b844bc9e7595f8d9f1" \/
   toEIP55Checksum keccak_sample ("0x" +:+ "742d35cc6634c0532925a3b844bc9e7595f8d9f1") =
     Some ("0x" +:+ "742d35cc6634c0532925a3b844bc9e7595f8d9f1")%string).
Proof.
  apply (validateAddress_ethereum_iff keccak_sample "742d35cc6634c0532925a3b844bc9e7595f8d9f1");
    vm_compute; reflexivity.
Defined.

Lemma validateAddress_no_panic_witness :
  validateAddress keccak_sample "0xaAaaaaaaaaaaaaaaaaaaaaaaaaaaaaaaaaaaaaaa" "ethereum" <> GoPanic.
Proof.
  apply (validateAddress_no_panic keccak_sample).
  intros s. reflexivity.
Defined.

Lemma checksum_error_suggestions_valid_witness :
  validateAddress keccak_sample "0xaAaaaaaaaaaaaaaaaaaaaaaaaaaaaaaaaaaaaaaa" "ethereum" =
    GoError (ErrChecksum "0xaAaaaaaaaaaaaaaaaaaaaaaaaaaaaaaaaaaaaaaa"
               "0xAaAaaaaaAaAaaaaAAaaAaAAaAAAaaaAaAaaaAaaa"
               "0xaaaaaaaaaaaaaaaaaaaaaaaaaaaaaaaaaaaaaaaa") /\
  validateAddress keccak_sample "0xAaAaaaaaAaAaaaaAAaaAaAAaAAAaaaAaAaaaAaaa" "ethereum" = GoOk tt /\
  validateAddress keccak_sample "0xaaaaaaaaaaaaaaaaaaaaaaaaaaaaaaaaaaaaaaaa" "ethereum" = GoOk tt.
Proof.
  split; [vm_compute; reflexivity |].
  apply (checksum_error_suggestions_valid keccak_sample "0xaAaaaaaaaaaaaaaaaaaaaaaaaaaaaaaaaaaaaaaa").
  vm_compute. reflexivity.
Defined.

Lemma ValidateNetwork_accepted_witness :
  ValidateNetwork "SN" = ("starknet", None) /\
  ((snd (ValidateNetwork "SN") = None <->
    In (ToLower "SN") ["starknet"; "ethereum"; "sn"; "stark"; "sn-sep"; "eth"; "eth-sep"]) /\
   (snd (ValidateNetwork "SN") = None ->
    (fst (ValidateNetwork "SN") = "starknet" \/ fst (ValidateNetwork "SN") = "ethereum") /\
    GetNetwork (fst (ValidateNetwork "SN")) = fst (ValidateNetwork "SN"))).
Proof.
  split; [vm_compute; reflexivity |].
  apply ValidateNetwork_accepted. vm_compute. reflexivity.
Defined.

Lemma runRequest_validation_sound_witness :
  runRequest_validation keccak_sample "eth" "0x742d35cc6634c0532925a3b844bc9e7595f8d9f1" "" false =
    GoOk ("ethereum", PlanSingle "ETH") /\
  (("ethereum" = "starknet" \/ "ethereum" = "ethereum") /\
   validateAddress keccak_sample "0x742d35cc6634c0532925a3b844bc9e7595f8d9f1" "ethereum" = GoOk tt /\
   detectAddressNetwork "0x742d35cc6634c0532925a3b844bc9e7595f8d9f1" = "ethereum" /\
   (("ethereum" = "starknet" /\ ("ETH" = "STRK" \/ "ETH" = "ETH")) \/
    ("ethereum" = "ethereum" /\ "ETH" = "ETH"))).
Proof.
  split; [vm_compute; reflexivity |].
  apply (runRequest_validation_sound keccak_sample "eth" "0x742d35cc6634c0532925a3b844bc9e7595f8d9f1"
           "" false "ethereum" (PlanSingle "ETH")); vm_compute; reflexivity.
Defined.

Lemma runRequest_both_mode_witness :
  runRequest_validation keccak_sample "sn" "0x0123" "Both" false =
  runRequest_validation keccak_sample "sn" "0x0123" "" true /\
  runRequest_validation keccak_sample "sn" "0x0123" "Both" false = GoOk ("starknet", PlanBoth).
Proof.
  split; [| vm_compute; reflexivity].
  apply runRequest_both_mode; right; vm_compute; reflexivity.
Defined.

Lemma NewMultiChainHandler_default_witness :
  let h := NewMultiChainHandler 5 4 (fun _ _ _ => true) sample_parse_float
             {[ "ethereum" := sample_chain ]} {[ "ethereum" := sample_provider ]} ["ethereum"] in
  (is_Some (({[ "ethereum" := sample_chain ]} : gmap string Chain) !! "starknet") ->
   h_defaultNetwork h = "starknet") /\
  (({[ "ethereum" := sample_chain ]} : gmap string Chain) !! "starknet" = None ->
   is_Some (({[ "ethereum" := sample_chain ]} : gmap string Chain) !! "ethereum") ->
   h_defaultNetwork h = "ethereum") /\
  exists chain chainProvider,
    ({[ "ethereum" := sample_chain ]} : gmap string Chain) !! h_defaultNetwork h = Some chain /\
    getChain h "" sample_world =
      (log_call CGetChain sample_world, Continue (inr (chain, chainProvider))).
Proof.
  apply NewMultiChainHandler_default.
  - intros name. simpl. split.
    + intros [<- | []]. rewrite lookup_singleton_eq. eauto.
    + intros [x Hx]. apply lookup_singleton_Some in Hx as [<- _]. left. reflexivity.
  - intros name [x Hx]. apply lookup_singleton_Some in Hx as [<- _].
    rewrite lookup_singleton_eq. eauto.
  - apply map_non_empty_singleton.
Defined.

Lemma GetQuota_throttle_entries_witness :
  exists w' r,
    GetQuota sample_handler "1.2.3.4" sample_world = (w', Continue (QuotaOk r)) /\
    ((forall n, is_Some (q_hourly_throttle_by_network r !! n) <-> is_Some (h_chains sample_handler !! n)) /\
     (forall n chain t,
        h_chains sample_handler !! n = Some chain ->
        NoDup (map ToLower (GetSupportedTokens chain)) ->
        In t (GetSupportedTokens chain) ->
        match q_hourly_throttle_by_network r !! n with
        | Some tokenThrottles => tokenThrottles !! ToLower t
        | None => None
        end =
        match snd (CheckTokenHourlyThrottle "1.2.3.4" n t sample_world) with
        | Continue (Ok p) => Some p
        | _ => None
        end)).
Proof.
  do 2 eexists. split; [match goal with |- ?a = _ => let v := eval vm_compute in a in change a with v end; reflexivity |].
  eapply GetQuota_throttle_entries. vm_compute. reflexivity.
Defined.

Lemma GetInfo_balances_witness :
  exists w' r,
    GetInfo (fun _ => "Starknet Sepolia") (fun _ _ => "1.00") sample_handler "" sample_world =
      (w', Continue (InfoOk r)) /\
    ir_BalanceSTRK r = "1.00" /\ ir_BalanceETH r = "1.00".
Proof.
  do 2 eexists. split; [match goal with |- ?a = _ => let v := eval vm_compute in a in change a with v end; reflexivity |].
  refine (GetInfo_balances (fun _ => "Starknet Sepolia") (fun _ _ => "1.00") _ sample_handler ""
            sample_world _ sample_chain sample_provider _ _ _).
  - intros prec x. discriminate.
  - vm_compute. reflexivity.
  - vm_compute. reflexivity.
Defined.

(** ** The hourly throttle across a sequence of API calls *)

(** A request leaves every throttle marker as it was, or sets it to expire
    one hour after the request. *)
Lemma RequestTokens_throttle_frame (h : Handler) (ip : string) (req : FaucetRequest)
    (w : World) (k : string * string * string) :
  let '(w', x) := RequestTokens h ip req w in
  token_throttle (w_store w') !! k = token_throttle (w_store w) !! k \/
  token_throttle (w_store w') !! k = Some (w_now w + TokenThrottleTTL).
Proof.
  unfold RequestTokens. simpl.
  destruct (String.eqb (ToUpper (req_Token req)) "BOTH") eqn:Hb; run_full.
  all: try (left; reflexivity).
  all: first
    [ match goal with Hm : forall key, ?m !! key = _ |- context [?m !! ?k0] =>
        rewrite (Hm k0); destruct (w_down _ OpSetTokenHourlyThrottle); [left; reflexivity|];
        destruct (bool_decide _); [right|left]; reflexivity end
    | match goal with |- context [<[?key := ?v]> ?m !! ?k0] =>
        destruct (decide (k0 = key)) as [->|?];
        [right; apply lookup_insert_eq | left; apply lookup_insert_ne; congruence] end ].
Qed.

Lemma GetStatus_store (h : Handler) (ip address network : string) (w : World) :
  w_store (fst (GetStatus h ip address network w)) = w_store w.
Proof. unfold GetStatus. simpl. repeat (simpl; case_inner); reflexivity. Qed.

Lemma GetQuota_store (h : Handler) (ip : string) (w : World) :
  w_store (fst (GetQuota h ip w)) = w_store w.
Proof.
  unfold GetQuota. simpl.
  destruct (w_down w OpGetIPDailyQuota) eqn:Hd; [reflexivity|].
  set (w1 := mkWorld _ _ _ _).
  destruct (quota_network_loop_spec ip (map_to_list (h_chains h)) ∅ w1)
    as (w' & m' & Hrun & Hs & _). unfold bind. rewrite Hrun. simpl. exact Hs.
Qed.

Lemma api_store_throttle (h : Handler) (c : ApiCall) (w : World) (k : string * string * string) :
  token_throttle (api_store h c w) !! k = token_throttle (w_store w) !! k \/
  token_throttle (api_store h c w) !! k = Some (w_now w + TokenThrottleTTL).
Proof.
  destruct c as [ip req|ip address network|ip]; simpl.
  - pose proof (RequestTokens_throttle_frame h ip req w k) as H.
    destruct (RequestTokens h ip req w). exact H.
  - rewrite GetStatus_store. left. reflexivity.
  - rewrite GetQuota_store. left. reflexivity.
Qed.

(** A marker expiring at [e] or later still expires at [e] or later after any
    sequence of API calls made no earlier than [e] minus one hour. *)
Lemma throttle_marker_persists (h : Handler) (trace : list (ApiCall * (StoreOp -> bool) * Z))
    (s : Store) (k : string * string * string) (e : Z) :
  (exists e0, token_throttle s !! k = Some e0 /\ e <= e0) ->
  (forall c down now, In (c, down, now) trace -> e <= now + TokenThrottleTTL) ->
  exists e', token_throttle (run_trace h s trace) !! k = Some e' /\ e <= e'.
Proof.
  revert s. induction trace as [|[[c down] now] rest IH]; intros s (e0 & Hk & He0) Hall; simpl.
  - exists e0. split; [exact Hk | exact He0].
  - apply IH.
    + destruct (api_store_throttle h c (mkWorld s down now []) k) as [Hs|Hs]; simpl in Hs.
      * exists e0. rewrite Hs. split; [exact Hk | exact He0].
      * exists (now + TokenThrottleTTL). split; [exact Hs|].
        apply (Hall c down now). left. reflexivity.
    + intros c' d' n' Hin. apply (Hall c' d' n'). right. exact Hin.
Qed.

(** C7, amended: the throttle gate lets a request through iff, for every token
    it covers, the store answers and holds no live marker for the exact key
    (ip, network, token); and once a request has written the marker for a
    token and the store accepted the write, then after any sequence of token
    requests, status queries and quota queries (from any ip, with any store
    faults) made no earlier than that request, no request from the same ip on
    the same network makes a transfer of that token less than one hour after
    the first request. *)
Theorem hourly_throttle (h : Handler) (ip : string) :
  (forall network toks w,
     snd (check_throttles ip network toks w) = Continue tt <->
     forall t, In t toks ->
       w_down w OpCheckTokenHourlyThrottle = false /\
       throttle_live (w_now w) (w_store w) (ip, network, t) = false) /\
  (forall req1 w1 tok,
     w_log w1 = [] -> w_down w1 OpSetTokenHourlyThrottle = false ->
     In (CSetTokenHourlyThrottle tok) (w_log (fst (RequestTokens h ip req1 w1))) ->
     forall trace,
       (forall c down now, In (c, down, now) trace -> w_now w1 <= now) ->
       forall req2 down2 now2,
         now2 < w_now w1 + TokenThrottleTTL ->
         network_or_default h (req_Network req2) = network_or_default h (req_Network req1) ->
         ~ In (CTransferTokens tok)
             (w_log (fst (RequestTokens h ip req2
                            (mkWorld (run_trace h (w_store (fst (RequestTokens h ip req1 w1))) trace)
                               down2 now2 []))))).
Proof.
  split; [apply check_throttles_pass|].
  intros req1 w1 tok Hlog Hset Hin trace Htr req2 down2 now2 Hnow Hnet Htrans.
  pose proof (throttle_marker_written h ip req1 w1 tok Hlog Hset) as Hm.
  destruct (RequestTokens h ip req1 w1) as [w1' x1]. simpl in *. specialize (Hm Hin).
  destruct (throttle_marker_persists h trace (w_store w1')
              (ip, network_or_default h (req_Network req1), tok) (w_now w1 + TokenThrottleTTL))
    as (e' & He' & Hle).
  - exists (w_now w1 + TokenThrottleTTL). split; [exact Hm | lia].
  - intros c down now Hc. specialize (Htr c down now Hc). lia.
  - pose proof (transfer_requires_throttle_pass h ip req2
                  (mkWorld (run_trace h (w_store w1') trace) down2 now2 []) tok eq_refl) as Ht.
    destruct (RequestTokens h ip req2 _) as [w2' x2]. simpl in *. specialize (Ht Htrans).
    unfold throttle_live in Ht. simpl in Ht. rewrite Hnet, He' in Ht.
    apply Z.ltb_ge in Ht. lia.
Qed.

Lemma hourly_throttle_witness :
  let trace := [(ApiRequestTokens "10.0.0.2" sample_req_both, no_faults, 1200);
                (ApiGetStatus "10.0.0.1" "0x1234" "starknet", no_faults, 1300);
                (ApiGetQuota "10.0.0.1", no_faults, 1400)] in
  w_log sample_world = [] /\ w_down sample_world OpSetTokenHourlyThrottle = false /\
  In (CSetTokenHourlyThrottle "STRK")
    (w_log (fst (RequestTokens sample_handler "10.0.0.1" sample_req_strk sample_world))) /\
  ~ In (CTransferTokens "STRK")
      (w_log (fst (RequestTokens sample_handler "10.0.0.1"
                     (mkFaucetRequest "0x1234" "starknet" "strk" "c2" 42)
                     (mkWorld (run_trace sample_handler
                                 (w_store (fst (RequestTokens sample_handler "10.0.0.1"
                                                  sample_req_strk sample_world))) trace)
                        no_faults 2000 [])))).
Proof.
  intros trace. split; [reflexivity|]. split; [reflexivity|]. split; [vm_compute; solve_in|].
  apply (proj2 (hourly_throttle sample_handler "10.0.0.1") sample_req_strk sample_world "STRK");
    [reflexivity | reflexivity | vm_compute; solve_in | | vm_compute; reflexivity | reflexivity].
  intros c down now Hc. simpl in Hc.
  repeat destruct Hc as [Hc|Hc]; try injection Hc as <- <- <-; simpl; try lia; destruct Hc.
Defined.
